(** * pelp/plant: irrigation controller and its embedded HTTP server

    A shallow embedding of [code.py] (pump control, moisture sampling,
    dosage, the watering loop, the two API endpoints) and of
    [lib/webserver.py] (bounded client queue, request parser, endpoint
    dispatch, response framing, worker loop), followed by the properties
    proved about them.

    Modelling conventions.
    - Python [int] is [Z]; Python [float] is an IEEE 754 binary64 value
      ([PrimFloat.float]); a number that may be either is a [pynum].
    - Python [str] is a [string] of ASCII characters; the request buffer is
      a [string] of bytes.
    - A Python [dict] with string keys is a [gmap string _].
    - Code that may raise returns a [Res]; code that also touches pins,
      sockets, the clock or the module globals runs in the monad [M], a
      state monad over [World] whose state survives a raised exception.
    - A coroutine is modelled by the sequence of its effects; each task is
      sequential between its own [await] points. *)

From Stdlib Require Import ZArith Floats List String Ascii Lia DecimalString.
From stdpp Require Import gmap strings.
Import ListNotations.

Set Warnings "-inexact-float".

Open Scope string_scope.

(** ** Python values and builtins *)

Module Py.

(** The exception classes that occur in the two source files, and the ones
    the drivers and the scheduler may inject. *)
Inductive exn : Type :=
  | IndexError
  | KeyError
  | ValueError
  | TypeError
  | UnicodeError
  | ZeroDivisionError
  | OSError
  | AttributeError
  | RecursionError
  | CancelledError.

Definition exn_eqb (a b : exn) : bool :=
  match a, b with
  | IndexError, IndexError | KeyError, KeyError | ValueError, ValueError
  | TypeError, TypeError | UnicodeError, UnicodeError
  | ZeroDivisionError, ZeroDivisionError | OSError, OSError
  | AttributeError, AttributeError | RecursionError, RecursionError
  | CancelledError, CancelledError => true
  | _, _ => false
  end.

(** The outcome of an expression that may raise. *)
Inductive Res (A : Type) : Type :=
  | Ok (a : A)
  | Raise (e : exn).
Arguments Ok {A} a.
Arguments Raise {A} e.

Definition rbind {A B} (r : Res A) (k : A -> Res B) : Res B :=
  match r with
  | Ok a => k a
  | Raise e => Raise e
  end.

(** *** Characters *)

Definition code (c : ascii) : N := N_of_ascii c.

(** [str.isspace] on the ASCII range: TAB, LF, VT, FF, CR, FS, GS, RS, US
    and the space. *)
Definition isspace (c : ascii) : bool :=
  let n := code c in
  ((9 <=? n) && (n <=? 13) || (28 <=? n) && (n <=? 32))%N.

(** The line boundaries of [str.splitlines] on the ASCII range: LF, VT, FF,
    CR, FS, GS, RS. *)
Definition islinebreak (c : ascii) : bool :=
  let n := code c in
  ((10 <=? n) && (n <=? 13) || (28 <=? n) && (n <=? 30))%N.

Definition lower_char (c : ascii) : ascii :=
  let n := code c in
  if ((65 <=? n) && (n <=? 90))%N then ascii_of_N (n + 32) else c.

Definition upper_char (c : ascii) : ascii :=
  let n := code c in
  if ((97 <=? n) && (n <=? 122))%N then ascii_of_N (n - 32) else c.

Definition CR : ascii := ascii_of_N 13.
Definition LF : ascii := ascii_of_N 10.
Definition CRLF : string := String CR (String LF "").

(** *** Strings *)

Fixpoint smap (f : ascii -> ascii) (s : string) : string :=
  match s with
  | "" => ""
  | String c r => String (f c) (smap f r)
  end.

(** [s.lower()] and [s.upper()]. *)
Definition lower : string -> string := smap lower_char.
Definition upper : string -> string := smap upper_char.

(** Truthiness of a string: [not s] holds for the empty string only. *)
Definition is_empty (s : string) : bool :=
  match s with
  | "" => true
  | _ => false
  end.

Fixpoint drop (n : nat) (s : string) : string :=
  match n, s with
  | O, _ => s
  | S _, "" => ""
  | S n', String _ r => drop n' r
  end.

Fixpoint take (n : nat) (s : string) : string :=
  match n, s with
  | O, _ => ""
  | S _, "" => ""
  | S n', String c r => String c (take n' r)
  end.

(** The first occurrence of [sep] in [s]: what precedes it and what
    follows it. *)
Fixpoint find_sep (sep s : string) : option (string * string) :=
  if String.prefix sep s then Some ("", drop (String.length sep) s)
  else
    match s with
    | "" => None
    | String c r =>
        match find_sep sep r with
        | Some (b, a) => Some (String c b, a)
        | None => None
        end
    end.

(** [s.partition(sep)] for a non-empty [sep]: the triple
    [(before, sep, after)], or [(s, "", "")] when [sep] does not occur. *)
Definition partition (sep s : string) : string * string * string :=
  match find_sep sep s with
  | Some (b, a) => (b, sep, a)
  | None => (s, "", "")
  end.

(** [s.splitlines()]: the lines of [s] without their terminators; CR LF is
    one terminator; a terminator at the very end opens no further line. *)
Fixpoint splitlines (s : string) : list string :=
  match s with
  | "" => []
  | String c r =>
      if islinebreak c then
        match r with
        | String c' r' =>
            if (Ascii.eqb c CR && Ascii.eqb c' LF)%bool
            then "" :: splitlines r'
            else "" :: splitlines r
        | "" => [""]
        end
      else
        match splitlines r with
        | [] => [String c ""]
        | l :: ls => String c l :: ls
        end
  end.

(** The token under construction at the head of [s], and the tokens that
    follow it. *)
Fixpoint split_ws_aux (s : string) : string * list string :=
  match s with
  | "" => ("", [])
  | String c r =>
      let '(t, ts) := split_ws_aux r in
      if isspace c then ("", if is_empty t then ts else t :: ts)
      else (String c t, ts)
  end.

(** [s.split()]: the maximal runs of non-whitespace characters. *)
Definition split_ws (s : string) : list string :=
  let '(t, ts) := split_ws_aux s in
  if is_empty t then ts else t :: ts.

Fixpoint split_on_aux (sep : ascii) (s : string) : string * list string :=
  match s with
  | "" => ("", [])
  | String c r =>
      let '(t, ts) := split_on_aux sep r in
      if Ascii.eqb c sep then ("", t :: ts) else (String c t, ts)
  end.

(** [s.split(sep)] for a one-character separator: empty fields are kept. *)
Definition split_on (sep : ascii) (s : string) : list string :=
  let '(t, ts) := split_on_aux sep s in t :: ts.

Fixpoint lstrip_by (p : ascii -> bool) (s : string) : string :=
  match s with
  | "" => ""
  | String c r => if p c then lstrip_by p r else s
  end.

Fixpoint rstrip_by (p : ascii -> bool) (s : string) : string :=
  match s with
  | "" => ""
  | String c r =>
      let r' := rstrip_by p r in
      if (is_empty r' && p c)%bool then "" else String c r'
  end.

(** [s.strip()] and [s.strip(chars)] for a one-character [chars]. *)
Definition strip (s : string) : string := rstrip_by isspace (lstrip_by isspace s).
Definition strip_char (ch : ascii) (s : string) : string :=
  rstrip_by (Ascii.eqb ch) (lstrip_by (Ascii.eqb ch) s).

(** [s[-1]]: the last character as a one-character string; [IndexError] on
    the empty string. *)
Fixpoint last_char (s : string) : Res string :=
  match s with
  | "" => Raise IndexError
  | String c "" => Ok (String c "")
  | String _ r => last_char r
  end.

(** [str(n)] for an [int]. *)
Definition str_of_int (n : Z) : string :=
  NilEmpty.string_of_int (Z.to_int n).

(** [", ".join(l)]. *)
Fixpoint join_comma (l : list string) : string :=
  match l with
  | [] => ""
  | [x] => x
  | x :: r => x ++ ", " ++ join_comma r
  end.

(** [bytes.decode()] restricted to ASCII requests: a byte outside the ASCII
    range is reported as a decoding failure (multi-byte UTF-8 sequences are
    outside the model). *)
Fixpoint all_ascii (s : string) : bool :=
  match s with
  | "" => true
  | String c r => (code c <? 128)%N && all_ascii r
  end.

Definition decode (request : string) : Res string :=
  if all_ascii request then Ok request else Raise UnicodeError.

(** *** Numbers *)

(** An [int] or a [float]. *)
Inductive pynum : Type :=
  | PyInt (z : Z)
  | PyFloat (f : float).

(** [float(z)]: the binary64 value nearest to [z]. *)
Definition float_of_Z (z : Z) : float :=
  SF2Prim (binary_normalize prec emax z 0 false).

(** The binary64 value nearest to [num / den], for [0 <= num] and
    [0 < den]: the quotient is taken with at least 64 significant bits and a
    sticky bit for the remainder, then rounded once. *)
Definition float_of_ratio (num den : Z) : float :=
  if (num =? 0)%Z then 0%float
  else
    let k := Z.max 0 (64 + Z.log2 den - Z.log2 num) in
    let n := (num * 2 ^ k)%Z in
    let q := (n / den)%Z in
    let sticky := if (n mod den =? 0)%Z then 0%Z else 1%Z in
    SF2Prim (binary_normalize prec emax (2 * q + sticky) (- k - 1) false).

(** The exact value of a finite [float]: its sign, and a numerator and a
    positive denominator of its magnitude. *)
Definition ratio_of_float (x : float) : option (bool * Z * Z) :=
  match Prim2SF x with
  | S754_zero s => Some (s, 0%Z, 1%Z)
  | S754_finite s m e =>
      if (0 <=? e)%Z then Some (s, (Z.pos m * 2 ^ e)%Z, 1%Z)
      else Some (s, Z.pos m, (2 ^ (- e))%Z)
  | _ => None
  end.

Definition with_sign (neg : bool) (x : float) : float :=
  if neg then (- x)%float else x.

(** The integer nearest to [num / den], ties to the even one. *)
Definition round_half_even (num den : Z) : Z :=
  let q := (num / den)%Z in
  let r := (num mod den)%Z in
  if (2 * r <? den)%Z then q
  else if (den <? 2 * r)%Z then (q + 1)%Z
  else if Z.even q then q else (q + 1)%Z.

(** [round(x, 2)] on a [float]: the exact value of [x] is rounded to the
    nearest multiple of 1/100, ties to even, and the result is the binary64
    value nearest to that decimal; infinities and NaN are returned as they
    are. *)
Definition round2 (x : float) : float :=
  match ratio_of_float x with
  | Some (s, num, den) =>
      with_sign s (float_of_ratio (round_half_even (num * 100) den) 100)
  | None => x
  end.

Definition to_float (x : pynum) : float :=
  match x with
  | PyInt z => float_of_Z z
  | PyFloat f => f
  end.

(** [x + y], [x - y], [x * y]: integer arithmetic on two [int]s, binary64
    arithmetic as soon as one operand is a [float]. *)
Definition add (x y : pynum) : pynum :=
  match x, y with
  | PyInt a, PyInt b => PyInt (a + b)
  | _, _ => PyFloat (to_float x + to_float y)
  end.

Definition sub (x y : pynum) : pynum :=
  match x, y with
  | PyInt a, PyInt b => PyInt (a - b)
  | _, _ => PyFloat (to_float x - to_float y)
  end.

Definition mul (x y : pynum) : pynum :=
  match x, y with
  | PyInt a, PyInt b => PyInt (a * b)
  | _, _ => PyFloat (to_float x * to_float y)
  end.

Definition is_zero_num (x : pynum) : bool :=
  match x with
  | PyInt z => (z =? 0)%Z
  | PyFloat f => PrimFloat.eqb f 0
  end.

(** The quotient of two [int]s, the second not zero: the binary64 value
    nearest to the exact quotient. *)
Definition int_truediv (a b : Z) : float :=
  with_sign (xorb (a <? 0)%Z (b <? 0)%Z) (float_of_ratio (Z.abs a) (Z.abs b)).

(** [x / y]: true division, always a [float]; [ZeroDivisionError] on a zero
    divisor. *)
Definition truediv (x y : pynum) : Res pynum :=
  if is_zero_num y then Raise ZeroDivisionError
  else
    match x, y with
    | PyInt a, PyInt b => Ok (PyFloat (int_truediv a b))
    | _, _ => Ok (PyFloat (to_float x / to_float y))
    end.

(** [x < y]: exact on two [int]s; an [int] compared with a [float] is
    compared through its binary64 value, which is exact below 2^53. *)
Definition lt (x y : pynum) : bool :=
  match x, y with
  | PyInt a, PyInt b => (a <? b)%Z
  | _, _ => PrimFloat.ltb (to_float x) (to_float y)
  end.

(** [min(a, b)] and [max(a, b)] keep the first argument unless the second
    is strictly better. *)
Definition min (a b : pynum) : pynum := if lt b a then b else a.
Definition max (a b : pynum) : pynum := if lt a b then b else a.

(** [round(x, 2)] on a number that is a [float] here. *)
Definition round_2 (x : pynum) : pynum :=
  match x with
  | PyInt z => PyInt z
  | PyFloat f => PyFloat (round2 f)
  end.

(** *** Text and numbers *)

Definition isdigit (c : ascii) : bool :=
  let n := code c in ((48 <=? n) && (n <=? 57))%N.

Definition digit_val (c : ascii) : Z := Z.of_N (code c - 48).

(** The number of decimal digits of a positive integer. *)
Definition ndigits (n : Z) : Z := Z.of_nat (String.length (str_of_int n)).

(** Whether [10^p <= num / den]. *)
Definition pow10_le (p num den : Z) : bool :=
  if (0 <=? p)%Z then (10 ^ p * den <=? num)%Z
  else (den <=? num * 10 ^ (- p))%Z.

(** The decimal exponent of a positive rational: the [p] with
    [10^p <= num / den < 10^(p+1)]. *)
Definition decimal_exponent (num den : Z) : Z :=
  let p0 :=
    if (den <=? num)%Z then (ndigits (num / den) - 1)%Z
    else (- ndigits (den / num))%Z in
  if pow10_le (p0 + 1) num den then (p0 + 1)%Z
  else if pow10_le p0 num den then p0 else (p0 - 1)%Z.

(** [num / den * 10^(-s)] as a fraction. *)
Definition scale10 (s num den : Z) : Z * Z :=
  if (0 <=? s)%Z then (num, (den * 10 ^ s)%Z) else ((num * 10 ^ (- s))%Z, den).

(** The positive rational [num / den] rounded to [n] significant decimal
    digits: the digits as an integer below [10^n], and the exponent of the
    first digit. *)
Definition round_sig (n num den : Z) : Z * Z :=
  let p := decimal_exponent num den in
  let '(a, b) := scale10 (p - n + 1) num den in
  let d := round_half_even a b in
  if (d =? 10 ^ n)%Z then ((10 ^ (n - 1))%Z, (p + 1)%Z) else (d, p).

(** The value [d * 10^(p - n + 1)] of [n] digits [d] whose first digit has
    exponent [p], as a binary64. *)
Definition float_of_digits (n d p : Z) : float :=
  let '(a, b) := scale10 (- (p - n + 1)) d 1 in float_of_ratio a b.

(** The shortest digit string that reads back as the positive float [x]
    (value [num / den]); seventeen digits always do. *)
Fixpoint shortest_digits (fuel : nat) (n : Z) (x : float) (num den : Z) : Z * Z * Z :=
  let '(d, p) := round_sig n num den in
  match fuel with
  | O => (n, d, p)
  | S fuel' =>
      if Leibniz.eqb (float_of_digits n d p) x then (n, d, p)
      else shortest_digits fuel' (n + 1)%Z x num den
  end.

Fixpoint zeros (n : nat) : string :=
  match n with
  | O => ""
  | S n' => String "0" (zeros n')
  end.

(** Trailing zeros of a digit string are not printed. *)
Definition strip_zeros (s : string) : string :=
  rstrip_by (Ascii.eqb "0") s.

(** [repr] of a positive finite float from its digits and the exponent of
    the first one: positional notation while the decimal point lies within
    the range (-4, 16], scientific notation with a two-digit exponent
    otherwise. *)
Definition format_repr (d p : Z) : string :=
  let ds := str_of_int d in
  let ds := match strip_zeros ds with "" => "0" | s => s end in
  let len := Z.of_nat (String.length ds) in
  let decpt := (p + 1)%Z in
  if ((-4 <? decpt) && (decpt <=? 16))%Z%bool then
    if (decpt <=? 0)%Z then "0." ++ zeros (Z.to_nat (- decpt)) ++ ds
    else if (len <=? decpt)%Z then ds ++ zeros (Z.to_nat (decpt - len)) ++ ".0"
    else take (Z.to_nat decpt) ds ++ "." ++ drop (Z.to_nat decpt) ds
  else
    let mant :=
      match ds with
      | String c "" => String c ""
      | String c r => String c ("." ++ r)
      | "" => ""
      end in
    let e := str_of_int (Z.abs p) in
    let e := if (Z.abs p <? 10)%Z then "0" ++ e else e in
    mant ++ "e" ++ (if (p <? 0)%Z then "-" else "+") ++ e.

(** [repr(x)] (and [str(x)]) of a [float]. *)
Definition repr_float (x : float) : string :=
  match Prim2SF x with
  | S754_nan => "nan"
  | S754_infinity s => if s then "-inf" else "inf"
  | S754_zero s => if s then "-0.0" else "0.0"
  | S754_finite s _ _ =>
      match ratio_of_float x with
      | Some (_, num, den) =>
          let '(_, d, p) := shortest_digits 16 1 (abs x) num den in
          (if s then "-" else "") ++ format_repr d p
      | None => ""
      end
  end.

Definition repr_num (x : pynum) : string :=
  match x with
  | PyInt z => str_of_int z
  | PyFloat f => repr_float f
  end.

(** [str(l)] of a list of numbers. *)
Definition str_of_list (l : list pynum) : string :=
  "[" ++ join_comma (map repr_num l) ++ "]".

(** Digits with single underscores between them, read after a first
    digit: the value so far, the number of digits, and the rest. *)
Fixpoint digits_aux (acc : Z) (n : Z) (s : string) : Z * Z * string :=
  match s with
  | String c r =>
      if isdigit c then digits_aux (10 * acc + digit_val c)%Z (n + 1)%Z r
      else if Ascii.eqb c "_" then
        match r with
        | String c' r' =>
            if isdigit c'
            then digits_aux (10 * acc + digit_val c')%Z (n + 1)%Z r'
            else (acc, n, s)
        | "" => (acc, n, s)
        end
      else (acc, n, s)
  | "" => (acc, n, s)
  end.

(** A digit part continuing the value [acc]: at least one digit. *)
Definition digitpart (acc : Z) (s : string) : option (Z * Z * string) :=
  match s with
  | String c r =>
      if isdigit c then Some (digits_aux (10 * acc + digit_val c)%Z 1 r)
      else None
  | "" => None
  end.

Definition read_sign (s : string) : bool * string :=
  match s with
  | String "-" r => (true, r)
  | String "+" r => (false, r)
  | _ => (false, s)
  end.

(** The optional exponent part and the end of the text. *)
Definition read_exponent (s : string) : option Z :=
  match s with
  | "" => Some 0%Z
  | String c r =>
      if (Ascii.eqb c "e" || Ascii.eqb c "E")%bool then
        let '(neg, r) := read_sign r in
        match digitpart 0 r with
        | Some (e, _, "") => Some (if neg then (- e)%Z else e)
        | _ => None
        end
      else None
  end.

(** The mantissa digits as an integer, the number of digits after the
    point, and the decimal exponent. *)
Definition read_decimal (s : string) : option (Z * Z * Z) :=
  match s with
  | String "." r =>
      match digitpart 0 r with
      | Some (m, n, r') =>
          match read_exponent r' with
          | Some e => Some (m, n, e)
          | None => None
          end
      | None => None
      end
  | _ =>
      match digitpart 0 s with
      | Some (m, _, String "." r) =>
          let '(m', n, r') :=
            match digitpart m r with
            | Some x => x
            | None => (m, 0%Z, r)
            end in
          match read_exponent r' with
          | Some e => Some (m', n, e)
          | None => None
          end
      | Some (m, _, r) =>
          match read_exponent r with
          | Some e => Some (m, 0%Z, e)
          | None => None
          end
      | None => None
      end
  end.

(** [float(s)] on a [str]: surrounding whitespace is ignored; a sign, then
    a decimal number, [inf], [infinity] or [nan] in any case;
    [ValueError] otherwise. *)
Definition float_of_str (s : string) : Res float :=
  let '(neg, body) := read_sign (strip s) in
  let word := lower body in
  if (String.eqb word "inf" || String.eqb word "infinity")%bool
  then Ok (with_sign neg infinity)
  else if String.eqb word "nan" then Ok nan
  else
    match read_decimal body with
    | Some (m, n, e) =>
        let '(a, b) := scale10 (n - e) m 1 in
        Ok (with_sign neg (float_of_ratio a b))
    | None => Raise ValueError
    end.

End Py.

(** ** The device: pins, sensors, clock, sockets and module globals *)

Module Device.
Import Py.

(** The three pump outputs of [code.py]. *)
Inductive pin : Type := pump_a_pin | pump_b_pin | pump_c_pin.

Definition pin_eqb (p q : pin) : bool :=
  match p, q with
  | pump_a_pin, pump_a_pin | pump_b_pin, pump_b_pin
  | pump_c_pin, pump_c_pin => true
  | _, _ => false
  end.

(** An accepted connection ([Client]): its identity, the bytes its peer
    sends, how many times a read finds nothing yet ([OSError]), and whether
    [socket.send] fails on it. *)
Record Client : Type := {
  cid : nat;
  incoming : string;
  would_block : nat;
  send_fails : bool
}.

(** The calls on the time-of-flight driver. *)
Inductive tof_op : Type :=
  | start_ranging | data_ready | clear_interrupt | read_distance | stop_ranging.

(** What the program does to the outside, in the order it does it. *)
Inductive event : Type :=
  | EInfo (args : list string)
  | EPin (p : pin) (v : bool)
  | ETof (op : tof_op)
  | ESleep (seconds : pynum)
  | ESend (c : nat) (data : string)
  | EClose (c : nat).

(** What the outside does to the program.  [fault n] is the failure, if
    any, injected into the [n]-th fallible call (a driver call or a sleep);
    [tof_distance n] is the distance the sensor reports at call [n];
    [monotonic_ns n] is the [n]-th reading of the clock;
    [sensor_value i n] is the level of moisture sensor [i] at the [n]-th
    read of a sensor pin; [html] is the content of the directory [/html]. *)
Record Env : Type := {
  fault : nat -> option exn;
  tof_distance : nat -> pynum;
  monotonic_ns : nat -> Z;
  sensor_value : nat -> nat -> bool;
  html : list (string * string)
}.

(** The mutable state: the pump outputs, the module globals
    [actual_moisture] and [client_queue], the effects so far (oldest
    first), and how much of each oracle has been consumed. *)
Record World : Type := {
  pin_value : pin -> bool;
  actual_moisture : list pynum;
  client_queue : list Client;
  trace : list event;
  calls : nat;
  clock_reads : nat;
  sensor_reads : nat
}.

Definition set_pin_value (p : pin) (v : bool) (w : World) : World :=
  {| pin_value := fun q => if pin_eqb q p then v else pin_value w q;
     actual_moisture := actual_moisture w;
     client_queue := client_queue w;
     trace := trace w;
     calls := calls w;
     clock_reads := clock_reads w;
     sensor_reads := sensor_reads w |}.

Definition set_actual_moisture (l : list pynum) (w : World) : World :=
  {| pin_value := pin_value w;
     actual_moisture := l;
     client_queue := client_queue w;
     trace := trace w;
     calls := calls w;
     clock_reads := clock_reads w;
     sensor_reads := sensor_reads w |}.

Definition set_client_queue (q : list Client) (w : World) : World :=
  {| pin_value := pin_value w;
     actual_moisture := actual_moisture w;
     client_queue := q;
     trace := trace w;
     calls := calls w;
     clock_reads := clock_reads w;
     sensor_reads := sensor_reads w |}.

Definition emit (e : event) (w : World) : World :=
  {| pin_value := pin_value w;
     actual_moisture := actual_moisture w;
     client_queue := client_queue w;
     trace := trace w ++ [e];
     calls := calls w;
     clock_reads := clock_reads w;
     sensor_reads := sensor_reads w |}.

Definition next_call (w : World) : World :=
  {| pin_value := pin_value w;
     actual_moisture := actual_moisture w;
     client_queue := client_queue w;
     trace := trace w;
     calls := S (calls w);
     clock_reads := clock_reads w;
     sensor_reads := sensor_reads w |}.

Definition next_clock_read (w : World) : World :=
  {| pin_value := pin_value w;
     actual_moisture := actual_moisture w;
     client_queue := client_queue w;
     trace := trace w;
     calls := calls w;
     clock_reads := S (clock_reads w);
     sensor_reads := sensor_reads w |}.

Definition next_sensor_read (w : World) : World :=
  {| pin_value := pin_value w;
     actual_moisture := actual_moisture w;
     client_queue := client_queue w;
     trace := trace w;
     calls := calls w;
     clock_reads := clock_reads w;
     sensor_reads := S (sensor_reads w) |}.

(** *** The monad of effectful code *)

Definition M (A : Type) : Type := World -> Res A * World.

Definition ret {A} (a : A) : M A := fun w => (Ok a, w).

Definition raise {A} (e : exn) : M A := fun w => (Raise e, w).

Definition bind {A B} (m : M A) (k : A -> M B) : M B :=
  fun w =>
    match m w with
    | (Ok a, w') => k a w'
    | (Raise e, w') => (Raise e, w')
    end.

(** A pure expression that may raise. *)
Definition lift {A} (r : Res A) : M A := fun w => (r, w).

(** [try: body  except: handler]: the handler sees every exception, in
    the state the body left. *)
Definition try_except {A} (body : M A) (handler : exn -> M A) : M A :=
  fun w =>
    match body w with
    | (Ok a, w') => (Ok a, w')
    | (Raise e, w') => handler e w'
    end.

(** [try: body  except E: handler]: other exceptions pass through. *)
Definition try_except_only {A} (cls : exn) (body : M A) (handler : M A) : M A :=
  try_except body (fun e => if exn_eqb e cls then handler else raise e).

Declare Scope monad_scope.
Delimit Scope monad_scope with monad.
Notation "x <- m ;; k" := (bind m (fun x => k))
  (at level 100, m at next level, k at level 200, right associativity) : monad_scope.
Notation "m ;; k" := (bind m (fun _ => k))
  (at level 100, k at level 200, right associativity) : monad_scope.
Open Scope monad_scope.

Section Primitives.
Variable E : Env.

(** Modelled from the spec: the module [log] is not among the sources;
    [info] formats its arguments into one line and writes it to the log,
    and has no failure mode. *)
Definition info (args : list string) : M unit :=
  fun w => (Ok tt, emit (EInfo args) w).

(** [pin.value = v] on an output pin. *)
Definition write_pin (p : pin) (v : bool) : M unit :=
  fun w => (Ok tt, emit (EPin p v) (set_pin_value p v w)).

(** A call that the outside may fail: the fault oracle is consulted, and
    the call leaves its event only when it succeeds. *)
Definition fallible (ev : event) : M nat :=
  fun w =>
    match fault E (calls w) with
    | Some e => (Raise e, next_call w)
    | None => (Ok (calls w), emit ev (next_call w))
    end.

(** [await asyncio.sleep(seconds)]. *)
Definition sleep (seconds : pynum) : M unit :=
  _ <- fallible (ESleep seconds) ;; ret tt.

(** A command to the time-of-flight driver. *)
Definition tof_call (op : tof_op) : M unit :=
  _ <- fallible (ETof op) ;; ret tt.

(** [tof.distance]. *)
Definition tof_read : M pynum :=
  n <- fallible (ETof read_distance) ;; ret (tof_distance E n).

(** [time.monotonic_ns()]. *)
Definition time_monotonic_ns : M Z :=
  fun w => (Ok (monotonic_ns E (clock_reads w)), next_clock_read w).

(** [moisture_sensor_pins[i].value]. *)
Definition read_sensor (i : nat) : M bool :=
  fun w => (Ok (sensor_value E i (sensor_reads w)), next_sensor_read w).

End Primitives.

End Device.

(** ** lib/webserver.py *)

Module Webserver.
Import Py Device.

Definition http_version : string := "HTTP/1.1".
Definition WORKERS : nat := 5.
Definition WORKER_BUFFER_SIZE : nat := 1024.

(** The bound of [client_queue = collections.deque((), 5)]. *)
Definition client_queue_maxlen : nat := 5.

(** [deque.append] on a bounded deque: the item goes to the right end, and
    an item is discarded from the left end when the bound is exceeded. *)
Definition deque_append {A} (maxlen : nat) (q : list A) (x : A) : list A :=
  let q' := (q ++ [x])%list in
  if (maxlen <? length q')%nat then tl q' else q'.

(** [deque.popleft]: [IndexError] on an empty deque. *)
Definition deque_popleft {A} (q : list A) : Res (A * list A) :=
  match q with
  | [] => Raise IndexError
  | x :: q' => Ok (x, q')
  end.

(** [Router.table]. *)
Definition Router_table : gmap string string :=
  <["water" := "index.html"]> (<["" := "index.html"]> ∅).

(** The four results of [extract_request]: all present, or all [None]. *)
Definition Extracted : Type :=
  option (string * string * gmap string string * gmap string string).

(** The inner function [extract_args]: each non-empty [&]-separated item
    is split at its first [=] and stored in [kwargs]. *)
Definition extract_args (args : string) (kwargs : gmap string string)
  : gmap string string :=
  fold_left
    (fun kwargs arg =>
       if is_empty arg then kwargs
       else
         let '(key, _, value) := partition "=" arg in
         <[key := value]> kwargs)
    (split_on "&" args) kwargs.

(** The body of the [try] block of [extract_request].  The query string
    [args] cut from the path is bound and not used again: only the lines
    of the body reach [extract_args]. *)
Definition extract_request_try (request : string)
  : Res (string * string * gmap string string * gmap string string) :=
  rbind (decode request) (fun _str =>
  let '(header, _, body) := partition (CRLF ++ CRLF) _str in
  let lines := splitlines header in
  rbind (match lines with
         | [] => Raise IndexError
         | line0 :: _ =>
             match split_ws line0 with
             | [method; path; _] => Ok (method, path)
             | _ => Raise ValueError
             end
         end) (fun '(method, path) =>
  let '(path, _, args) := partition "?" path in
  let headers :=
    fold_left
      (fun headers line =>
         if is_empty line then headers
         else
           let '(key, _, value) := partition ":" line in
           let value := strip value in
           <[key := value]> headers)
      (tl lines) (∅ : gmap string string) in
  let kwargs :=
    if is_empty body then (∅ : gmap string string)
    else
      fold_left (fun kwargs line => extract_args line kwargs)
        (splitlines body) ∅ in
  Ok (path, method, headers, kwargs))).

(** [extract_request]: any exception turns into four [None]s. *)
Definition extract_request (request : string) : Extracted :=
  match extract_request_try request with
  | Ok r => Some r
  | Raise _ => None
  end.

(** What an endpoint function returns: nothing, a pair [(code, text)], a
    triple [(code, text, html)], or a string. *)
Inductive response : Type :=
  | RNone
  | RPair (code : Z) (text : string)
  | RTriple (code : Z) (text : string) (html : string)
  | RStr (html : string).

(** [Endpoint]: the function receives the request arguments as keyword
    arguments. *)
Record Endpoint : Type := {
  ep_path : string;
  ep_method : string;
  ep_func : gmap string string -> M response
}.

(** The decorator [endpoint(path, method)]: registration overwrites. *)
Definition endpoint (path method : string)
    (func : gmap string string -> M response)
    (endpoints : gmap string Endpoint) : gmap string Endpoint :=
  <[path := {| ep_path := path; ep_method := method; ep_func := func |}]>
    endpoints.

(** The depth at which the interpreter stops a recursion. *)
Definition recursion_limit : nat := 1000.

Section Server.
Variable E : Env.
(** [WebAPI.endpoints], filled by the application before the server
    starts. *)
Variable endpoints : gmap string Endpoint.

(** [Client.close]. *)
Definition close (client : Client) : M unit :=
  fun w => (Ok tt, emit (EClose (cid client)) w).

(** [Client.send]: a failing send closes the socket and raises nothing. *)
Definition send (client : Client) (data : string) : M unit :=
  if send_fails client then close client
  else fun w => (Ok tt, emit (ESend (cid client) data) w).

(** [Client.recv_data]: each read that finds nothing yields to the
    scheduler; the read that succeeds delivers at most [buffer_size]
    bytes. *)
Fixpoint recv_loop (blocked : nat) (client : Client) (buffer_size : nat)
  : M string :=
  match blocked with
  | O => ret (take buffer_size (incoming client))
  | S blocked' =>
      sleep E (PyInt 0) ;; recv_loop blocked' client buffer_size
  end.

Definition recv_data (client : Client) (buffer_size : nat) : M string :=
  recv_loop (would_block client) client buffer_size.

(** [open("/html/" + name).read()]. *)
Definition read_html (name : string) : Res string :=
  match find (fun f => String.eqb (fst f) name) (html E) with
  | Some f => Ok (snd f)
  | None => Raise OSError
  end.

(** [path2html]: the file of that name, else the file the routing table
    names for it, else the error page. *)
Fixpoint path2html (depth : nat) (path : string) : Res (string * string) :=
  match depth with
  | O => Raise RecursionError
  | S depth' =>
      let path := strip_char "/" path in
      let files := map fst (html E) in
      if negb (existsb (String.eqb path) files) then
        match Router_table !! path with
        | Some npath =>
            if is_empty npath
            then rbind (read_html "error.html")
                   (fun text => Ok (text, "404 Not Found"))
            else path2html depth' npath
        | None =>
            rbind (read_html "error.html")
              (fun text => Ok (text, "404 Not Found"))
        end
      else
        (* the loop over [files] returns at the first file equal to [path];
           falling off its end would return [None], which no caller can
           unpack *)
        match find (fun file => String.eqb file path) files with
        | Some file => rbind (read_html file) (fun text => Ok (text, "200 OK"))
        | None => Raise TypeError
        end
  end.

(** [WebAPI.handle_api].  With four [None]s the lookup finds nothing. *)
Definition handle_api (extracted : Extracted) : M response :=
  match extracted with
  | None => ret RNone
  | Some (path, method, headers, kwargs) =>
      match endpoints !! path with
      | None => ret RNone
      | Some endpoint =>
          if String.eqb (ep_method endpoint) method
          then ep_func endpoint kwargs
          else ret RNone
      end
  end.

(** The body and the status fragment chosen in [handle_connection] from
    what the endpoint returned. *)
Definition resolve (path : string) (response : response)
  : Res (string * string) :=
  match response with
  | RNone => path2html recursion_limit path
  | RPair code text =>
      let rc := str_of_int code ++ text in
      rbind (path2html recursion_limit
               (if (code =? 200)%Z then path else "/error.html"))
        (fun '(html, _) => Ok (html, rc))
  | RTriple code text html =>
      let rc := str_of_int code ++ text in
      Ok (html, rc)
  | RStr html => Ok (html, "200 OK")
  end.

(** [handle_connection]. *)
Definition handle_connection (client : Client) (buffer_size : nat) : M unit :=
  request <- recv_data client buffer_size ;;
  let extracted := extract_request request in
  response <- handle_api extracted ;;
  match extracted with
  | None => close client
  | Some (path, method, headers, kwargs) =>
      resolved <- lift (resolve path response) ;;
      let '(html, rc) := resolved in
      let response := http_version ++ " " ++ rc ++ CRLF ++ CRLF ++ html in
      send client response ;;
      close client
  end.

(** [client_queue.popleft()] and [client_queue.append(client)]. *)
Definition popleft : M Client :=
  fun w =>
    match deque_popleft (client_queue w) with
    | Ok (client, q) => (Ok client, set_client_queue q w)
    | Raise e => (Raise e, w)
    end.

Definition append (client : Client) : M unit :=
  fun w =>
    (Ok tt,
     set_client_queue
       (deque_append client_queue_maxlen (client_queue w) client) w).

(** One turn of the loop of [worker]. *)
Definition worker_turn (buffer_size : nat) : M unit :=
  try_except_only IndexError
    (client <- popleft ;; handle_connection client buffer_size)
    (sleep E (PyInt 0)).

(** [worker], for [turns] turns of its endless loop: an exception that
    leaves a turn ends the task. *)
Fixpoint worker (turns : nat) (buffer_size : nat) : M unit :=
  match turns with
  | O => ret tt
  | S turns' => worker_turn buffer_size ;; worker turns' buffer_size
  end.


End Server.

End Webserver.

(** ** code.py *)

Module Plant.
Import Py Device Webserver.

(** *** Constants *)

Definition label2pin : gmap string pin :=
  <["c" := pump_c_pin]> (<["b" := pump_b_pin]> (<["a" := pump_a_pin]> ∅)).

Definition i2ABC : list string := ["A"; "B"; "C"].
Definition i2abc : list string := ["a"; "b"; "c"].

Definition target_moisture : list pynum := [PyInt 60; PyInt 60; PyInt 60].
Definition mlpp : pynum := PyInt 1.
Definition scmml : pynum := PyFloat 0.00669518060338389.
Definition pipe_volume : pynum := PyInt 40.

(** The value of the global [actual_moisture] when the module is loaded. *)
Definition initial_moisture : list pynum := [PyInt 0; PyInt 0; PyInt 0].

(** [l[i]]. *)
Definition index {A} (l : list A) (i : nat) : Res A :=
  match nth_error l i with
  | Some x => Ok x
  | None => Raise IndexError
  end.

(** The record of one sensor's sampling loop: the locals [first], [last],
    [ticks] and [last_value] of [moisture_readings]. *)
Record Sample : Type := {
  first : option Z;
  last : option Z;
  ticks : Z;
  last_value : bool
}.

(** [not t] for a timestamp that may be [None]. *)
Definition not_time (t : option Z) : bool :=
  match t with
  | None => true
  | Some z => (z =? 0)%Z
  end.

(** The end of one turn of the [for] loop of [moisture_readings]: the
    score appended to [results] for the sampled position. *)
Definition moisture_score (s : Sample) : Res pynum :=
  if (not_time (first s) || not_time (last s))%bool then Ok (PyFloat 0)
  else
    let first := default 0%Z (first s) in
    let last := default 0%Z (last s) in
    rbind (truediv (PyInt (last - first)) (PyInt (ticks s))) (fun average =>
    let min_ns := PyInt 20000000 in
    let max_ns := PyInt 80000000 in
    let average := Py.max min_ns (Py.min max_ns average) in
    rbind (truediv (Py.sub average min_ns) (Py.sub max_ns min_ns)) (fun q =>
    let scaled := Py.mul q (PyInt 100) in
    Ok (round_2 scaled))).

(** Following the spec's words for the scaling (4.5, steps 6 and 7; 8,
    property 1): the period is clamped to the two bounds, and the clamped
    period is rescaled to 0..100 and rounded to two decimals. *)
Definition fmin (a b : float) : float := if (b <? a)%float then b else a.
Definition fmax (a b : float) : float := if (a <? b)%float then b else a.
Definition clamp (x lo hi : float) : float := fmax lo (fmin hi x).
Definition spec_score (P : float) : float :=
  round2 ((clamp P 20000000 80000000 - 20000000) / 60000000 * 100)%float.

(** What the sampling loop keeps true of its locals: no transition seen and
    neither timestamp set, or at least one transition seen and both
    timestamps read from the clock. *)
Definition well_sampled (E : Env) (s : Sample) : Prop :=
  match first s, last s with
  | None, None => ticks s = 0%Z
  | Some f, Some l =>
      (0 < ticks s)%Z
      /\ (exists n, f = monotonic_ns E n) /\ (exists n, l = monotonic_ns E n)
  | _, _ => False
  end.

(** The pump that is on, if any, after the events [evs], starting with
    the pump [on]; [None] as soon as a second pump is switched on while
    one is on. *)
Fixpoint replay (on : option pin) (evs : list event) : option (option pin) :=
  match evs with
  | [] => Some on
  | EPin p true :: rest =>
      match on with
      | None => replay (Some p) rest
      | Some q => if pin_eqb p q then replay on rest else None
      end
  | EPin p false :: rest =>
      match on with
      | None => replay None rest
      | Some q => if pin_eqb p q then replay None rest else replay on rest
      end
  | _ :: rest => replay on rest
  end.

Section Controller.
Variable E : Env.

(** *** Pumps *)

(** [label2pin[pump].value = v]: [KeyError] on an unknown label. *)
Definition set_pump (pump : string) (v : bool) : M unit :=
  match label2pin !! pump with
  | Some p => write_pin p v
  | None => raise KeyError
  end.

Definition start_pump (pump : string) : M unit :=
  info ["Starting pump " ++ upper pump ++ "."] ;;
  set_pump pump true.

Definition stop_pump (pump : string) : M unit :=
  info ["Stopping pump " ++ upper pump ++ "."] ;;
  set_pump pump false.

(** *** Distance *)

(** The [for] loop of [sample_tof]: wait for a measurement, acknowledge
    it, add it up.  The busy wait on [tof.data_ready] is one call: the
    driver is taken to report a measurement in the end. *)
Fixpoint sample_loop (count : nat) (distance : pynum) : M pynum :=
  match count with
  | O => ret distance
  | S count' =>
      tof_call E data_ready ;;
      tof_call E clear_interrupt ;;
      d <- tof_read E ;;
      sample_loop count' (Py.add distance d)
  end.

Definition sample_tof (count : nat) : M pynum :=
  tof_call E start_ranging ;;
  distance <- sample_loop count (PyInt 0) ;;
  tof_call E stop_ranging ;;
  lift (truediv distance (PyInt (Z.of_nat count))).

(** *** Dispensing *)

Definition dispense_water (pump : string) (ml : pynum) : M unit :=
  try_except
    (cm <- sample_tof 1 ;;
     let water_time := Py.mul (Py.mul scmml cm) (Py.add ml pipe_volume) in
     info ["Dispensing " ++ repr_num ml ++ " ml"] ;;
     start_pump pump ;;
     sleep E water_time ;;
     stop_pump pump)
    (fun e => stop_pump pump ;; raise e).

(** *** Moisture *)

(** The [while] loop of [moisture_readings] for sensor [i], for at most
    [fuel] turns; [None] when the turns run out before the loop ends. *)
Fixpoint poll (fuel : nat) (i : nat) (start : Z) (s : Sample)
  : M (option Sample) :=
  match fuel with
  | O => ret None
  | S fuel' =>
      if (ticks s <? 10)%Z then
        now <- time_monotonic_ns E ;;
        if (now - start <=? 1000000000)%Z then
          value <- read_sensor E i ;;
          s' <- (if negb (Bool.eqb (last_value s) value) then
                   first' <- match first s with
                             | None => t <- time_monotonic_ns E ;; ret (Some t)
                             | Some t => ret (Some t)
                             end ;;
                   last' <- time_monotonic_ns E ;;
                   ret {| first := first';
                          last := Some last';
                          ticks := ticks s + 1;
                          last_value := value |}
                 else ret s) ;;
          sleep E (PyInt 0) ;;
          poll fuel' i start s'
        else ret (Some s)
      else ret (Some s)
  end.

(** The first half of one turn of the [for] loop: sample sensor [i]. *)
Definition sample_position (fuel : nat) (i : nat) : M (option Sample) :=
  last_value <- read_sensor E i ;;
  start <- time_monotonic_ns E ;;
  poll fuel i start
    {| first := None; last := None; ticks := 0; last_value := last_value |}.

(** One turn of the [for] loop: sample sensor [i] and score it. *)
Definition read_position (fuel : nat) (i : nat) : M (option pynum) :=
  r <- sample_position fuel i ;;
  match r with
  | None => ret None
  | Some s => v <- lift (moisture_score s) ;; ret (Some v)
  end.

Fixpoint readings_loop (fuel : nat) (positions : list nat)
    (results : list pynum) : M (option (list pynum)) :=
  match positions with
  | [] => ret (Some results)
  | i :: rest =>
      r <- read_position fuel i ;;
      match r with
      | None => ret None
      | Some v => readings_loop fuel rest (results ++ [v])
      end
  end.

Definition moisture_readings (fuel : nat) : M (option (list pynum)) :=
  readings_loop fuel [0; 1; 2]%nat [].

(** *** The watering loop *)

(** The [for] loop of [watering_loop] from position [i] on. *)
Fixpoint water_positions (i : nat) (pairs : list (pynum * pynum)) : M unit :=
  match pairs with
  | [] => ret tt
  | (reading, target) :: rest =>
      (if Py.lt reading target then
         name <- lift (index i2ABC i) ;;
         info ["Moisture too low in plant " ++ name] ;;
         let diff := Py.sub target reading in
         let ml := Py.mul diff mlpp in
         pump <- lift (index i2abc i) ;;
         dispense_water pump ml
       else ret tt) ;;
      water_positions (S i) rest
  end.

Definition store_moisture (l : list pynum) : M unit :=
  fun w => (Ok tt, set_actual_moisture l w).

Definition load_moisture : M (list pynum) :=
  fun w => (Ok (actual_moisture w), w).

(** One turn of the loop of [watering_loop]. *)
Definition watering_turn (fuel : nat) : M (option unit) :=
  info ["Reading sensors..."] ;;
  r <- moisture_readings fuel ;;
  match r with
  | None => ret None
  | Some readings =>
      store_moisture readings ;;
      info ["Sensor report:"; str_of_list readings] ;;
      current <- load_moisture ;;
      water_positions 0 (combine current target_moisture) ;;
      sleep E (PyInt (15 * 60)) ;;
      ret (Some tt)
  end.


(** Following the spec's words for the sweep (4.8, step 3): the positions
    whose reading is below its target, in order, each with its display
    name, its pump label and its dose [(target - reading) * mlpp]. *)
Definition spec_doses (readings : list pynum) : list (string * string * pynum) :=
  flat_map
    (fun '((name, pump), (reading, target)) =>
       if Py.lt reading target
       then [(name, pump, Py.mul (Py.sub target reading) mlpp)]
       else [])
    (combine (combine i2ABC i2abc) (combine readings target_moisture)).

(** The doses dispensed one after the other, each announced in the log. *)
Fixpoint dispense_each (doses : list (string * string * pynum)) : M unit :=
  match doses with
  | [] => ret tt
  | (name, pump, ml) :: rest =>
      info ["Moisture too low in plant " ++ name] ;;
      dispense_water pump ml ;;
      dispense_each rest
  end.

(** *** Endpoints *)

(** Keyword arguments are checked against the parameter names of the
    function: an unexpected one is a [TypeError]. *)
Definition bind_kwargs (names : list string) (kwargs : gmap string string)
  : Res unit :=
  if forallb (fun k => existsb (String.eqb k) names)
       (map fst (map_to_list kwargs))
  then Ok tt else Raise TypeError.

(** [water(pump=None, volume=None)]. *)
Definition water (pump volume : option string) : M response :=
  match pump, volume with
  | Some pump, Some volume =>
      c <- lift (last_char pump) ;;
      let pump := lower c in
      ml <- lift (float_of_str volume) ;;
      dispense_water pump (PyFloat ml) ;;
      ret RNone
  | _, _ => ret (RPair 404 "Not found")
  end.

(** [moisture()]. *)
Definition moisture : M response :=
  current <- load_moisture ;;
  ret (RStr (str_of_list current)).

(** [WebAPI.endpoints] after the two decorators have run. *)
Definition endpoints : gmap string Endpoint :=
  endpoint "/moisture" "GET"
    (fun kwargs => lift (bind_kwargs [] kwargs) ;; moisture)
    (endpoint "/water" "POST"
       (fun kwargs =>
          lift (bind_kwargs ["pump"; "volume"] kwargs) ;;
          water (kwargs !! "pump") (kwargs !! "volume"))
       ∅).

End Controller.

(** The state in which [main] starts the two tasks: pumps off, no client
    queued, nothing measured yet. *)
Definition initial_world : World :=
  {| pin_value := fun _ => false;
     actual_moisture := initial_moisture;
     client_queue := [];
     trace := [];
     calls := 0;
     clock_reads := 0;
     sensor_reads := 0 |}.

End Plant.

(** ** A bench set-up

    One concrete environment and a few concrete requests, on which the
    general statements below are instantiated. *)

Module Bench.
Import Py Device Webserver Plant.

(** No fault; the reservoir 10 cm away; a clock that advances 5 ms at each
    reading; sensor 0 changes level every 5 reads, sensor 1 never, sensor 2
    every 20 reads; the two pages the server needs. *)
Definition bench : Env :=
  {| fault := fun _ => None;
     tof_distance := fun _ => PyFloat 10;
     monotonic_ns := fun n => (1000 + 5000000 * Z.of_nat n)%Z;
     sensor_value := fun i n =>
       match i with
       | O => Nat.even (n / 5)
       | S O => false
       | _ => Nat.even (n / 20)
       end;
     html := [("index.html", "<html>index</html>");
              ("error.html", "<html>error</html>")] |}.

(** The same, with the sixth fallible call cancelled: from
    [initial_world] that is the timed sleep of the first dispense. *)
Definition interrupted : Env :=
  {| fault := fun n => if (n =? 5)%nat then Some CancelledError else None;
     tof_distance := tof_distance bench;
     monotonic_ns := monotonic_ns bench;
     sensor_value := sensor_value bench;
     html := html bench |}.

(** A client whose request is ready to be read and whose socket works. *)
Definition ready_client (n : nat) (request : string) : Client :=
  {| cid := n; incoming := request; would_block := 0; send_fails := false |}.

Definition water_empty_pump_request : string :=
  "POST /water HTTP/1.1" ++ CRLF ++ CRLF ++ "pump=&volume=5".

Definition water_bad_volume_request : string :=
  "POST /water HTTP/1.1" ++ CRLF ++ CRLF ++ "pump=a&volume=abc".

Definition water_no_input_request : string :=
  "POST /water HTTP/1.1" ++ CRLF ++ CRLF.

Definition moisture_request : string :=
  "GET /moisture HTTP/1.1" ++ CRLF ++ CRLF.

Definition moisture_query_request : string :=
  "GET /moisture?x=1 HTTP/1.1" ++ CRLF ++ CRLF.

End Bench.

(** ** Vocabulary of the further properties *)

Module Shape.
Import Py Device Webserver Plant.

(** Whether the character [c] occurs in [s]. *)
Fixpoint occurs (c : ascii) (s : string) : bool :=
  match s with
  | "" => false
  | String a r => (Ascii.eqb a c || occurs c r)%bool
  end.

(** Whether some character of [s] satisfies [p]. *)
Fixpoint any_char (p : ascii -> bool) (s : string) : bool :=
  match s with
  | "" => false
  | String a r => (p a || any_char p r)%bool
  end.

(** A token of a request line: not empty, no whitespace. *)
Definition token (s : string) : Prop :=
  is_empty s = false /\ any_char isspace s = false.

(** The text [k1=v1&k2=v2&...] of a list of pairs. *)
Fixpoint urlencode (pairs : list (string * string)) : string :=
  match pairs with
  | [] => ""
  | [(k, v)] => k ++ "=" ++ v
  | (k, v) :: rest => k ++ "=" ++ v ++ "&" ++ urlencode rest
  end.

(** A key and a value that survive that encoding: the key is not empty
    and has neither [=] nor [&], the value has no [&]. *)
Definition plain_pair (kv : string * string) : Prop :=
  is_empty (fst kv) = false
  /\ occurs "=" (fst kv) = false
  /\ occurs "&" (fst kv) = false
  /\ occurs "&" (snd kv) = false.

(** A header line [Name: value], and the header lines of a request, each
    after the end of the line before it. *)
Definition header_line (kv : string * string) : string :=
  fst kv ++ ": " ++ snd kv.

Fixpoint header_block (headers : list (string * string)) : string :=
  match headers with
  | [] => ""
  | kv :: rest => CRLF ++ header_line kv ++ header_block rest
  end.

(** A request: the request line, the header lines, a blank line, and the
    pairs as its body. *)
Definition build_request (method target version : string)
    (headers pairs : list (string * string)) : string :=
  method ++ " " ++ target ++ " " ++ version ++ header_block headers
  ++ CRLF ++ CRLF ++ urlencode pairs.

(** A token of ASCII characters. *)
Definition ascii_token (s : string) : Prop :=
  token s /\ all_ascii s = true.

(** A pair that can travel in a body: plain, of ASCII characters, without
    a line boundary. *)
Definition wire_pair (kv : string * string) : Prop :=
  plain_pair kv
  /\ all_ascii (fst kv) = true /\ all_ascii (snd kv) = true
  /\ any_char islinebreak (fst kv) = false
  /\ any_char islinebreak (snd kv) = false.

(** A header that can travel on a line: of ASCII characters, without a
    line boundary, the name without [:], the value with no whitespace at
    either end. *)
Definition wire_header (kv : string * string) : Prop :=
  all_ascii (fst kv) = true /\ all_ascii (snd kv) = true
  /\ any_char islinebreak (fst kv) = false
  /\ any_char islinebreak (snd kv) = false
  /\ occurs ":" (fst kv) = false
  /\ strip (snd kv) = snd kv.

(** Effects on a socket, and effects on a pump. *)
Definition socket_event (ev : event) : bool :=
  match ev with
  | ESend _ _ | EClose _ => true
  | _ => false
  end.

Definition pin_event (ev : event) : bool :=
  match ev with
  | EPin _ _ => true
  | _ => false
  end.

(** [w'] is [w] after further effects, none of which satisfies [bad]. *)
Definition extends_without (bad : event -> bool) (w w' : World) : Prop :=
  exists evs : list event,
    trace w' = (trace w ++ evs)%list /\ forallb (fun ev => negb (bad ev)) evs = true.

(** The last [n] items of a list. *)
Definition newest {A} (n : nat) (l : list A) : list A :=
  skipn (length l - n) l.

(** Every pump is off. *)
Definition all_off (w : World) : Prop := forall q : pin, pin_value w q = false.

(** [w'] is [w] after further effects that leave the pumps alone. *)
Definition quiet (w w' : World) : Prop :=
  extends_without pin_event w w'
  /\ (forall q : pin, pin_value w' q = pin_value w q).

(** [w'] is [w] after further effects during which at most one pump was on
    at any time, and after which every pump is off. *)
Definition pump_safe (w w' : World) : Prop :=
  exists evs : list event,
    trace w' = (trace w ++ evs)%list
    /\ replay None evs = Some None
    /\ all_off w'.

(** What the sampling loop keeps true of its locals beyond
    [well_sampled]: at most ten transitions counted, and the two
    timestamps read from the clock in that order, before now. *)
Definition sampled_in_order (E : Env) (w : World) (s : Sample) : Prop :=
  (0 <= ticks s <= 10)%Z
  /\ match first s, last s with
     | None, None => ticks s = 0%Z
     | Some f, Some l =>
         (0 < ticks s)%Z
         /\ exists nf nl : nat,
              (nf <= nl < clock_reads w)%nat
              /\ f = monotonic_ns E nf /\ l = monotonic_ns E nl
     | _, _ => False
     end.

(** A clock that never runs backwards. *)
Definition monotone (E : Env) : Prop :=
  forall m n : nat, (m <= n)%nat -> (monotonic_ns E m <= monotonic_ns E n)%Z.

End Shape.

(** * Properties *)

Import Py Device Webserver Plant Bench.

(** ** Proof tools *)

Ltac world_simpl :=
  cbn [calls trace pin_value actual_moisture client_queue clock_reads
       sensor_reads emit next_call set_pin_value set_actual_moisture
       set_client_queue next_clock_read next_sensor_read write_pin
       fst snd] in *.

(** Case analysis on every consultation of the fault oracle in [H]. *)
Ltac split_faults E H :=
  repeat match type of H with
         | context [fault E ?n] =>
             let F := fresh "F" in
             destruct (fault E n) eqn:F; world_simpl
         end.

Ltac unfold_dispense H :=
  unfold dispense_water, try_except, sample_tof, sample_loop, tof_call,
    tof_read, sleep, start_pump, stop_pump, set_pump, info, bind, fallible,
    lift, ret, raise in H;
  cbn [truediv is_zero_num Z.of_nat Pos.of_succ_nat Z.eqb] in H.

Ltac trace_shape :=
  world_simpl; rewrite <- ?app_assoc; cbn [app].

(** Unfolding of the monad and of the primitive effects in [H]. *)
Ltac run_in H :=
  cbv [bind ret raise lift sleep tof_call tof_read fallible
       time_monotonic_ns read_sensor info store_moisture load_moisture] in H;
  world_simpl.

(** ** The builtins on known values

    Values the interpreter gives for the same expressions. *)

Example splitlines_crlf :
  splitlines ("a" ++ CRLF ++ "b" ++ CRLF) = ["a"; "b"]
  /\ splitlines (String LF "") = [""]
  /\ splitlines "" = [].
Proof. repeat split. Qed.

Example split_request_line :
  split_ws "GET /moisture?x=1 HTTP/1.1" = ["GET"; "/moisture?x=1"; "HTTP/1.1"]
  /\ split_ws "  a   b " = ["a"; "b"]
  /\ split_on "&" "pump=&volume=5" = ["pump="; "volume=5"]
  /\ split_on "&" "" = [""].
Proof. repeat split. Qed.

Example partition_first_occurrence :
  partition "=" "a=b=c" = ("a", "=", "b=c")
  /\ partition "=" "pump=" = ("pump", "=", "")
  /\ partition "?" "/moisture" = ("/moisture", "", "").
Proof. repeat split. Qed.

Example strip_both_ends :
  strip "  a b  " = "a b" /\ strip_char "/" "/water/" = "water"
  /\ strip_char "/" "/" = "".
Proof. repeat split. Qed.

Example last_char_lower :
  rbind (last_char "PumpB") (fun c => Ok (lower c)) = Ok "b"
  /\ last_char "" = Raise IndexError.
Proof. repeat split. Qed.

Example round2_half_even :
  round2 2.675 = 2.67%float /\ round2 0.125 = 0.12%float
  /\ round2 0.375 = 0.38%float /\ round2 12.5 = 12.5%float
  /\ round2 33.33333333 = 33.33%float.
Proof. vm_compute. repeat split. Qed.

Example int_truediv_nearest :
  int_truediv 1 3 = (1 / 3)%float /\ int_truediv 275000000 10 = 27500000%float
  /\ int_truediv 0 (-5) = (-0)%float
  /\ truediv (PyInt 1) (PyInt 0) = Raise ZeroDivisionError.
Proof. vm_compute. repeat split. Qed.

Example repr_float_shortest :
  repr_float 0.1 = "0.1" /\ repr_float 33.33 = "33.33"
  /\ repr_float 100 = "100.0" /\ repr_float 0 = "0.0"
  /\ repr_float 1e16 = "1e+16" /\ repr_float 0.00001 = "1e-05"
  /\ repr_float (0.1 + 0.2) = "0.30000000000000004"
  /\ repr_float (0.00669518060338389 * 10 * 45) = "3.0128312715227508"
  /\ str_of_list [PyFloat 12.5; PyFloat 0; PyFloat 100] = "[12.5, 0.0, 100.0]".
Proof. vm_compute. repeat split. Qed.

Example float_of_str_values :
  float_of_str "5" = Ok 5%float /\ float_of_str " 1e3 " = Ok 1000%float
  /\ float_of_str "0.1" = Ok 0.1%float /\ float_of_str "1_000" = Ok 1000%float
  /\ float_of_str "-inf" = Ok neg_infinity
  /\ float_of_str "abc" = Raise ValueError /\ float_of_str "" = Raise ValueError
  /\ float_of_str "1__0" = Raise ValueError /\ float_of_str "." = Raise ValueError.
Proof. vm_compute. repeat split. Qed.

(** One sweep on the bench: sensor 0 averages 27.5 ms between
    transitions, sensor 1 shows none within its second, sensor 2 is slower
    than the upper bound. *)
Example bench_sweep :
  fst (moisture_readings bench 300 initial_world)
  = Ok (Some [PyFloat 12.5; PyFloat 0; PyFloat 100]).
Proof. vm_compute. reflexivity. Qed.

(** ** The request parser *)

(** The arguments of a request come from its body alone: whatever
    follows [?] in the request line is cut off the path and dropped. *)
Lemma extract_request_try_kwargs (request : string) path method headers kwargs :
  extract_request_try request = Ok (path, method, headers, kwargs) ->
  exists _str,
    decode request = Ok _str /\
    let body := snd (partition (CRLF ++ CRLF) _str) in
    kwargs =
      if is_empty body then ∅
      else fold_left (fun kwargs line => extract_args line kwargs)
             (splitlines body) ∅.
Proof.
  unfold extract_request_try.
  destruct (decode request) as [_str|e]; simpl; [|discriminate].
  destruct (partition (CRLF ++ CRLF) _str) as [[header sep] body] eqn:Hp.
  destruct (splitlines header) as [|line0 lines]; simpl; [discriminate|].
  destruct (split_ws line0) as [|m [|p [|v [|]]]]; simpl; try discriminate.
  destruct (partition "?" p) as [[path' sep'] args].
  intros H; inversion H; subst.
  exists _str; split; [reflexivity|].
  cbv zeta. rewrite Hp. reflexivity.
Qed.

(** C3 (the code at the request of the claim): the request line
    [GET /moisture?x=1 HTTP/1.1] with no body parses to path [/moisture]
    and method [GET], but to an empty arguments map: the pair [x=1] of
    the query string is not merged. *)
Theorem extract_request_drops_query_string :
  moisture_query_request = "GET /moisture?x=1 HTTP/1.1" ++ CRLF ++ CRLF
  /\ extract_request moisture_query_request
     = Some ("/moisture", "GET", ∅, ∅)
  /\ extract_request "GET /moisture?x=1 HTTP/1.1"
     = Some ("/moisture", "GET", ∅, ∅).
Proof. repeat split; vm_compute; reflexivity. Qed.

(** ** The pending-connection queue *)

Lemma deque_append_full {A} (maxlen : nat) (q : list A) (x : A) :
  (0 < maxlen)%nat -> length q = maxlen ->
  deque_append maxlen q x = (tl q ++ [x])%list.
Proof.
  intros Hpos H. unfold deque_append.
  rewrite length_app; simpl.
  destruct (Nat.ltb_spec maxlen (length q + 1)); [|lia].
  destruct q; simpl in *; [lia | reflexivity].
Qed.

Lemma deque_append_room {A} (maxlen : nat) (q : list A) (x : A) :
  (length q < maxlen)%nat -> deque_append maxlen q x = (q ++ [x])%list.
Proof.
  intros H. unfold deque_append.
  rewrite length_app; simpl.
  destruct (Nat.ltb_spec maxlen (length q + 1)); [lia | reflexivity].
Qed.

Lemma deque_append_bounded {A} (maxlen : nat) (q : list A) (x : A) :
  (length q <= maxlen)%nat -> (length (deque_append maxlen q x) <= maxlen)%nat.
Proof.
  intros H.
  destruct (Nat.eq_dec (length q) maxlen) as [Heq|Hne].
  - destruct q as [|y q]; simpl in *.
    + subst maxlen. unfold deque_append; simpl. lia.
    + rewrite deque_append_full by (simpl; lia).
      simpl. rewrite length_app; simpl. lia.
  - rewrite deque_append_room by lia. rewrite length_app; simpl. lia.
Qed.

(** C7: the queue never holds more than 5 clients; appending to a queue
    of fewer than 5 keeps every client in arrival order; appending a 6th
    client to a full queue drops exactly the oldest queued client and keeps
    the newest 5 in their order, the next [popleft] hands out the oldest
    survivor, and the append leaves no effect on any socket: the evicted
    connection gets no response and is not closed. *)
Theorem client_queue_evicts_oldest :
  forall (w : World) (c1 c2 c3 c4 c5 c6 : Client),
    let full := set_client_queue [c1; c2; c3; c4; c5] w in
    let w' := snd (append c6 full) in
    fst (append c6 full) = Ok tt
    /\ client_queue w' = [c2; c3; c4; c5; c6]
    /\ trace w' = trace w
    /\ fst (popleft w') = Ok c2
    /\ (forall (q : list Client) (c : Client),
          (length q <= client_queue_maxlen)%nat ->
          (length (deque_append client_queue_maxlen q c)
             <= client_queue_maxlen)%nat)
    /\ (forall (q : list Client) (c : Client),
          (length q < client_queue_maxlen)%nat ->
          deque_append client_queue_maxlen q c = (q ++ [c])%list)
    /\ (forall (q : list Client) (c : Client),
          length q = client_queue_maxlen ->
          deque_append client_queue_maxlen q c = (tl q ++ [c])%list).
Proof.
  intros w c1 c2 c3 c4 c5 c6 full w'.
  repeat split.
  - apply deque_append_bounded.
  - apply deque_append_room.
  - intros q c H. apply deque_append_full; [unfold client_queue_maxlen; lia | exact H].
Qed.

(** ** Dispensing *)

Lemma pin_eqb_refl (p : pin) : pin_eqb p p = true.
Proof. destruct p; reflexivity. Qed.

(** C1: whenever [dispense_water] raises, the pin of its pump is off in
    the state the caller receives; and if the pump was switched on during
    the call, the last three effects of the call are that activation, the
    log line of [stop_pump] and the switch-off, and the exception raised
    again is the very failure injected into the last fallible call (the
    timed sleep). *)
Theorem dispense_water_failure_stops_pump :
  forall (E : Env) (pump : string) (ml : pynum) (w w' : World) (e : exn),
    dispense_water E pump ml w = (Raise e, w') ->
    exists evs : list event,
      trace w' = (trace w ++ evs)%list
      /\ (forall p, label2pin !! pump = Some p -> pin_value w' p = false)
      /\ (forall p, In (EPin p true) evs ->
            label2pin !! pump = Some p
            /\ pin_value w' p = false
            /\ (exists before,
                  evs = (before ++ [EPin p true;
                                    EInfo [("Stopping pump " ++ upper pump ++ ".")%string];
                                    EPin p false])%list)
            /\ fault E (Nat.pred (calls w')) = Some e).
Proof.
  intros E pump ml w w' e H.
  unfold_dispense H.
  destruct (label2pin !! pump) as [p0|] eqn:L.
  all: split_faults E H.
  all: try (destruct (tof_distance E _) eqn:D;
            cbn [truediv is_zero_num Z.of_nat Pos.of_succ_nat Z.eqb add] in H).
  all: inversion H; subst; clear H.
  all: trace_shape; eexists; (split; [reflexivity|]).
  all: (split; [ intros p Hp; inversion Hp; subst;
                 try rewrite pin_eqb_refl; try reflexivity |]).
  all: intros p HIn; cbn [In] in HIn.
  all: repeat (destruct HIn as [HIn|HIn]; try discriminate HIn).
  all: try contradiction.
  all: inversion HIn; subst; clear HIn.
  all: rewrite pin_eqb_refl; cbn [Nat.pred].
  all: repeat split; try assumption.
  all: match goal with
       | |- exists before, ?l = _ => exists (firstn 7 l); reflexivity
       end.
Qed.

(** C1 on the bench, with the timed sleep of pump [a] cancelled. *)
Lemma dispense_water_failure_stops_pump_witness :
  let w' := snd (dispense_water interrupted "a" (PyFloat 5) initial_world) in
  exists evs : list event,
    trace w' = (trace initial_world ++ evs)%list
    /\ (forall p, label2pin !! "a" = Some p -> pin_value w' p = false)
    /\ (forall p, In (EPin p true) evs ->
          label2pin !! "a" = Some p
          /\ pin_value w' p = false
          /\ (exists before,
                evs = (before ++ [EPin p true;
                                  EInfo [("Stopping pump " ++ upper "a" ++ ".")%string];
                                  EPin p false])%list)
          /\ fault interrupted (Nat.pred (calls w')) = Some CancelledError).
Proof.
  intros w'.
  apply (dispense_water_failure_stops_pump interrupted "a" (PyFloat 5) initial_world w' CancelledError).
  vm_compute. reflexivity.
Defined.

(** C6: when the distance sample returns [cm], the pump label is known and
    the timed sleep is not interrupted, [dispense_water] logs the dose,
    switches the pump on, sleeps [scmml * cm * (ml + pipe_volume)] seconds,
    and switches the pump off right after the sleep; for 10 cm and 5 ml the
    duration is [0.00669518060338389 * 10 * 45]. *)
Theorem dispense_water_duration :
  forall (E : Env) (pump : string) (ml cm : pynum) (p : pin) (w w1 : World),
    label2pin !! pump = Some p ->
    sample_tof E 1 w = (Ok cm, w1) ->
    fault E (calls w1) = None ->
    let water_time := Py.mul (Py.mul scmml cm) (Py.add ml pipe_volume) in
    exists w' : World,
      dispense_water E pump ml w = (Ok tt, w')
      /\ trace w' =
           (trace w1 ++
              [EInfo [("Dispensing " ++ repr_num ml ++ " ml")%string];
               EInfo [("Starting pump " ++ upper pump ++ ".")%string];
               EPin p true;
               ESleep water_time;
               EInfo [("Stopping pump " ++ upper pump ++ ".")%string];
               EPin p false])%list
      /\ pin_value w' p = false
      /\ Py.mul (Py.mul scmml (PyFloat 10)) (Py.add (PyFloat 5) pipe_volume)
         = PyFloat (0.00669518060338389 * 10 * 45).
Proof.
  intros E pump ml cm p w w1 L Hs F water_time.
  unfold dispense_water, try_except, bind at 1.
  rewrite Hs.
  unfold start_pump, stop_pump, set_pump, sleep, info, bind, fallible, ret.
  rewrite L. world_simpl. rewrite F. world_simpl.
  eexists; split; [reflexivity|].
  trace_shape. rewrite pin_eqb_refl.
  repeat split.
Qed.

(** C6 on the bench: 5 ml through pump [a] with the reservoir at 10 cm. *)
Lemma dispense_water_duration_witness :
  let w1 := snd (sample_tof bench 1 initial_world) in
  let water_time :=
    Py.mul (Py.mul scmml (PyFloat 10)) (Py.add (PyFloat 5) pipe_volume) in
  exists w' : World,
    dispense_water bench "a" (PyFloat 5) initial_world = (Ok tt, w')
    /\ trace w' =
         (trace w1 ++
            [EInfo [("Dispensing " ++ repr_num (PyFloat 5) ++ " ml")%string];
             EInfo [("Starting pump " ++ upper "a" ++ ".")%string];
             EPin pump_a_pin true;
             ESleep water_time;
             EInfo [("Stopping pump " ++ upper "a" ++ ".")%string];
             EPin pump_a_pin false])%list
    /\ pin_value w' pump_a_pin = false
    /\ Py.mul (Py.mul scmml (PyFloat 10)) (Py.add (PyFloat 5) pipe_volume)
       = PyFloat (0.00669518060338389 * 10 * 45).
Proof.
  intros w1 water_time.
  apply (dispense_water_duration bench "a" (PyFloat 5) (PyFloat 10) pump_a_pin initial_world w1).
  - vm_compute. reflexivity.
  - vm_compute. reflexivity.
  - vm_compute. reflexivity.
Defined.

(** ** The watering loop *)

Lemma replay_app (on : option pin) (a b : list event) :
  replay on (a ++ b) =
    match replay on a with
    | Some on' => replay on' b
    | None => None
    end.
Proof.
  revert on. induction a as [|ev a IH]; intros on; [reflexivity|].
  destruct ev as [| p [|] | | | |]; cbn [app replay]; auto.
  - destruct on as [q|]; auto. destruct (pin_eqb p q); auto.
  - destruct on as [q|]; auto. destruct (pin_eqb p q); auto.
Qed.

(** Whatever happens in it, one call of [dispense_water] that starts with
    every pump off has at most its own pump on at any time, and ends with
    every pump off. *)
Lemma dispense_water_exclusive (E : Env) (pump : string) (ml : pynum)
    (w w' : World) (r : Res unit) :
  dispense_water E pump ml w = (r, w') ->
  (forall q, pin_value w q = false) ->
  exists evs : list event,
    trace w' = (trace w ++ evs)%list
    /\ replay None evs = Some None
    /\ (forall q, pin_value w' q = false).
Proof.
  intros H Hoff.
  unfold_dispense H.
  destruct (label2pin !! pump) as [p0|] eqn:L.
  all: split_faults E H.
  all: try (destruct (tof_distance E _) eqn:D;
            cbn [truediv is_zero_num Z.of_nat Pos.of_succ_nat Z.eqb add] in H).
  all: inversion H; subst; clear H.
  all: trace_shape; eexists; (split; [reflexivity|]).
  all: split; [ try (destruct p0; reflexivity); reflexivity
              | intros q; try destruct (pin_eqb q p0); auto ].
Qed.

Lemma water_positions_exclusive (E : Env) (pairs : list (pynum * pynum)) :
  forall (i : nat) (w w' : World) (r : Res unit),
    water_positions E i pairs w = (r, w') ->
    (forall q, pin_value w q = false) ->
    exists evs : list event,
      trace w' = (trace w ++ evs)%list
      /\ replay None evs = Some None
      /\ (forall q, pin_value w' q = false).
Proof.
  induction pairs as [|[reading target] rest IH]; intros i w w' r H Hoff.
  - inversion H; subst. exists []. rewrite app_nil_r. auto.
  - cbn [water_positions] in H. unfold bind at 1 in H.
    destruct (Py.lt reading target).
    + unfold bind at 1 in H. unfold lift at 1 in H.
      destruct (index i2ABC i) as [name|e].
      * unfold bind at 1 in H. unfold info at 1 in H.
        unfold bind at 1 in H. unfold lift at 1 in H.
        destruct (index i2abc i) as [pump|e].
        -- destruct (dispense_water E pump _ _) as [[[]|e] w1] eqn:D.
           ++ apply dispense_water_exclusive in D; [|exact Hoff].
              destruct D as (evs1 & Tr1 & R1 & O1). world_simpl.
              apply IH in H; [|exact O1].
              destruct H as (evs2 & Tr2 & R2 & O2).
              eexists. rewrite Tr2, Tr1. rewrite <- !app_assoc. cbn [app].
              split; [reflexivity|]. split; [|exact O2].
              cbn [replay]. rewrite replay_app, R1. exact R2.
           ++ apply dispense_water_exclusive in D; [|exact Hoff].
              destruct D as (evs1 & Tr1 & R1 & O1). world_simpl.
              inversion H; subst.
              eexists. rewrite Tr1. rewrite <- !app_assoc. cbn [app].
              split; [reflexivity|]. split; [|exact O1].
              cbn [replay]. exact R1.
        -- inversion H; subst. world_simpl.
           eexists. split; [reflexivity|]. split; [reflexivity|exact Hoff].
      * inversion H; subst. exists []. rewrite app_nil_r. auto.
    + unfold ret at 1 in H. apply IH in H; assumption.
Qed.

Lemma water_positions_spec_doses (E : Env) (readings : list pynum) (w : World) :
  water_positions E 0 (combine readings target_moisture) w
  = dispense_each E (spec_doses readings) w.
Proof.
  unfold spec_doses, target_moisture, i2ABC, i2abc.
  destruct readings as [|r0 [|r1 [|r2 [|r3 rest]]]];
    cbn [combine flat_map water_positions dispense_each app].
  all: repeat match goal with
         | |- context [Py.lt ?a ?b] => destruct (Py.lt a b)
         end.
  all: cbn [combine flat_map water_positions dispense_each app].
  all: unfold bind, lift, info, ret, index, i2ABC, i2abc; cbn [nth_error].
  all: repeat match goal with
         | |- context [dispense_water ?E0 ?p ?ml ?w0] =>
             destruct (dispense_water E0 p ml w0) as [[[]|?] ?]
         end.
  all: reflexivity.
Qed.

(** C5: for any readings, the [for] loop of a sweep is the sequence of
    dispenses, one after the other and in position order, to exactly the
    positions whose reading is strictly below its target of 60, each with
    the dose [(target - reading) * mlpp]; readings [40, 70, 60] give one
    dispense of 20 ml to position 0 and none to positions 1 and 2; and,
    whatever fails, a sweep that starts with every pump off never has two
    pumps on at once and ends with every pump off.  A whole turn of the
    watering loop is the sampling, the storing of the readings, those
    dispenses and the sleep of 900 seconds. *)
Theorem watering_sweep_doses :
  forall (E : Env) (readings : list pynum) (w : World),
    water_positions E 0 (combine readings target_moisture) w
      = dispense_each E (spec_doses readings) w
    /\ spec_doses [PyFloat 40; PyFloat 70; PyFloat 60]
         = [("A", "a", PyFloat 20)]
    /\ spec_doses [PyInt 40; PyInt 70; PyInt 60]
         = [("A", "a", PyInt 20)]
    /\ (forall (w' : World) (r : Res unit),
          water_positions E 0 (combine readings target_moisture) w = (r, w') ->
          (forall q, pin_value w q = false) ->
          exists evs : list event,
            trace w' = (trace w ++ evs)%list
            /\ replay None evs = Some None
            /\ (forall q, pin_value w' q = false))
    /\ (forall (fuel : nat) (w1 : World),
          moisture_readings E fuel (emit (EInfo ["Reading sensors..."]) w)
            = (Ok (Some readings), w1) ->
          watering_turn E fuel w
          = (dispense_each E (spec_doses readings) ;;
             sleep E (PyInt 900) ;;
             ret (Some tt))
              (emit (EInfo ["Sensor report:"; str_of_list readings])
                 (set_actual_moisture readings w1))).
Proof.
  intros E readings w.
  split; [apply water_positions_spec_doses|].
  split; [vm_compute; reflexivity|].
  split; [vm_compute; reflexivity|].
  split; [intros w' r; apply water_positions_exclusive|].
  intros fuel w1 H.
  unfold watering_turn. unfold bind at 1. unfold info at 1. cbn [fst snd].
  unfold bind at 1. rewrite H.
  unfold bind at 1. unfold store_moisture at 1.
  unfold bind at 1. unfold info at 1.
  unfold bind at 1. unfold load_moisture at 1. world_simpl.
  unfold bind at 1. rewrite water_positions_spec_doses.
  reflexivity.
Qed.

(** ** Responses *)

Lemma handle_connection_sends (E : Env) (eps : gmap string Endpoint)
    (client : Client) (buffer_size : nat) (w w1 w2 : World)
    (request path method : string) (headers kwargs : gmap string string)
    (resp : response) (html rc : string) :
  recv_data E client buffer_size w = (Ok request, w1) ->
  extract_request request = Some (path, method, headers, kwargs) ->
  handle_api eps (Some (path, method, headers, kwargs)) w1 = (Ok resp, w2) ->
  resolve E path resp = Ok (html, rc) ->
  send_fails client = false ->
  handle_connection E eps client buffer_size w
  = (Ok tt,
     emit (EClose (cid client))
       (emit (ESend (cid client)
                (http_version ++ " " ++ rc ++ CRLF ++ CRLF ++ html)) w2)).
Proof.
  intros Hr Hx Ha Hres Hs.
  unfold handle_connection. unfold bind at 1. rewrite Hr.
  rewrite Hx. unfold bind at 1. rewrite Ha.
  unfold bind at 1. unfold lift. rewrite Hres.
  unfold bind, send, close. rewrite Hs. reflexivity.
Qed.

(** C8: for a request that parses and whose endpoint returned [resp], the
    bytes sent are ["HTTP/1.1"], a space, the status fragment, CR LF CR LF
    and the body, and the connection is then closed; the fragment of a
    triple or of a pair is [str(code)] directly followed by the text ([404]
    and ["Not found"] give ["404Not found"]), and the fragment of a string
    is ["200 OK"]. *)
Theorem response_framing :
  forall (E : Env) (eps : gmap string Endpoint) (client : Client)
         (buffer_size : nat) (w w1 w2 : World)
         (request path method : string) (headers kwargs : gmap string string)
         (resp : response),
    recv_data E client buffer_size w = (Ok request, w1) ->
    extract_request request = Some (path, method, headers, kwargs) ->
    handle_api eps (Some (path, method, headers, kwargs)) w1 = (Ok resp, w2) ->
    send_fails client = false ->
    let sent (fragment body : string) :=
      handle_connection E eps client buffer_size w
      = (Ok tt,
         emit (EClose (cid client))
           (emit (ESend (cid client)
                    ("HTTP/1.1" ++ " " ++ fragment ++ CRLF ++ CRLF ++ body))
              w2)) in
    (forall code text body,
        resp = RTriple code text body -> sent (str_of_int code ++ text) body)
    /\ (forall code text body rc,
          resp = RPair code text ->
          path2html E recursion_limit
            (if (code =? 200)%Z then path else "/error.html") = Ok (body, rc) ->
          sent (str_of_int code ++ text) body)
    /\ (forall body, resp = RStr body -> sent "200 OK" body)
    /\ str_of_int 404 ++ "Not found" = "404Not found".
Proof.
  intros E eps client buffer_size w w1 w2 request path method headers kwargs
    resp Hr Hx Ha Hs sent.
  subst sent; cbv beta.
  repeat split.
  - intros code text body ->.
    eapply handle_connection_sends; eauto.
  - intros code text body rc -> Hp.
    eapply handle_connection_sends; eauto.
    cbn [resolve]. rewrite Hp. reflexivity.
  - intros body ->.
    eapply handle_connection_sends; eauto.
Qed.

(** C8 on the bench: [/water] without inputs answers [(404, "Not found")],
    which goes out as ["HTTP/1.1 404Not found"] with the error page. *)
Lemma response_framing_witness :
  let client := ready_client 1 water_no_input_request in
  handle_connection bench (endpoints bench) client WORKER_BUFFER_SIZE
    initial_world
  = (Ok tt,
     emit (EClose 1)
       (emit (ESend 1
                ("HTTP/1.1" ++ " " ++ "404Not found" ++ CRLF ++ CRLF
                 ++ "<html>error</html>"))
          initial_world)).
Proof.
  intros client.
  refine (proj1 (proj2
    (response_framing bench (endpoints bench) client WORKER_BUFFER_SIZE
       initial_world initial_world initial_world
       water_no_input_request "/water" "POST" ∅ ∅ (RPair 404 "Not found")
       _ _ _ _))
    404%Z "Not found" "<html>error</html>" "200 OK" _ _).
  all: vm_compute; reflexivity.
Defined.

(** ** The worker and the endpoints *)

Lemma water_empty_pump_parsed :
  extract_request (take WORKER_BUFFER_SIZE water_empty_pump_request)
  = Some ("/water", "POST", ∅, <["volume" := "5"]> (<["pump" := ""]> ∅)).
Proof. vm_compute. reflexivity. Qed.

Lemma endpoints_water (E : Env) :
  endpoints E !! "/water"
  = Some {| ep_path := "/water"; ep_method := "POST";
            ep_func := fun kwargs =>
              lift (bind_kwargs ["pump"; "volume"] kwargs) ;;
              water E (kwargs !! "pump") (kwargs !! "volume") |}.
Proof.
  unfold endpoints, endpoint.
  rewrite lookup_insert_ne by discriminate.
  apply lookup_insert_eq.
Qed.

Lemma endpoints_moisture (E : Env) :
  endpoints E !! "/moisture"
  = Some {| ep_path := "/moisture"; ep_method := "GET";
            ep_func := fun kwargs =>
              lift (bind_kwargs [] kwargs) ;; moisture |}.
Proof. unfold endpoints, endpoint. apply lookup_insert_eq. Qed.

(** A request served without waiting for its bytes. *)
Lemma handle_connection_ready (E : Env) (eps : gmap string Endpoint)
    (client : Client) (buffer_size : nat) (w : World) :
  would_block client = 0%nat ->
  handle_connection E eps client buffer_size w
  = (let extracted := extract_request (take buffer_size (incoming client)) in
     response <- handle_api eps extracted ;;
     match extracted with
     | None => close client
     | Some (path, method, headers, kwargs) =>
         resolved <- lift (resolve E path response) ;;
         let '(html, rc) := resolved in
         send client (http_version ++ " " ++ rc ++ CRLF ++ CRLF ++ html) ;;
         close client
     end) w.
Proof.
  intros Hb. unfold handle_connection, recv_data. rewrite Hb. reflexivity.
Qed.

(** C9: a [POST /water] with body [pump=&volume=5] parses to
    [pump = ""] and [volume = "5"], so the handler is past its check for
    missing inputs when [pump[-1]] raises [IndexError]; the exception leaves
    [handle_connection] with nothing sent and nothing closed, the worker
    takes it for an empty queue, yields, and goes on with the next client. *)
Theorem water_empty_pump_IndexError :
  forall (E : Env) (w : World) (client : Client) (q : list Client),
    incoming client = water_empty_pump_request ->
    would_block client = 0%nat ->
    client_queue w = client :: q ->
    let w1 := set_client_queue q w in
    handle_connection E (endpoints E) client WORKER_BUFFER_SIZE w1
      = (Raise IndexError, w1)
    /\ worker_turn E (endpoints E) WORKER_BUFFER_SIZE w = sleep E (PyInt 0) w1
    /\ (fault E (calls w) = None ->
        forall turns : nat,
          worker E (endpoints E) (S turns) WORKER_BUFFER_SIZE w
          = worker E (endpoints E) turns WORKER_BUFFER_SIZE
              (emit (ESleep (PyInt 0)) (next_call w1)))
    /\ extract_request (take WORKER_BUFFER_SIZE (incoming client))
       = Some ("/water", "POST", ∅, <["volume" := "5"]> (<["pump" := ""]> ∅))
    /\ (forall w0 : World,
          water E (Some "") (Some "5") w0 = (Raise IndexError, w0)).
Proof.
  intros E w client q Hin Hb Hq w1.
  assert (Hc : handle_connection E (endpoints E) client WORKER_BUFFER_SIZE w1
               = (Raise IndexError, w1)).
  { rewrite handle_connection_ready by exact Hb.
    rewrite Hin, water_empty_pump_parsed. cbv zeta.
    unfold bind at 1. unfold handle_api. rewrite endpoints_water.
    cbn [ep_method ep_func String.eqb Ascii.eqb Bool.eqb].
    reflexivity. }
  assert (Ht : worker_turn E (endpoints E) WORKER_BUFFER_SIZE w
               = sleep E (PyInt 0) w1).
  { unfold worker_turn, try_except_only, try_except.
    unfold bind at 1. unfold popleft. rewrite Hq. cbn [deque_popleft].
    fold w1. rewrite Hc. reflexivity. }
  split; [exact Hc|]. split; [exact Ht|]. split; [|split].
  - intros F turns. cbn [worker]. unfold bind at 1. rewrite Ht.
    unfold sleep, bind, fallible, ret. subst w1. world_simpl. rewrite F.
    reflexivity.
  - rewrite Hin. exact water_empty_pump_parsed.
  - intros w0. reflexivity.
Qed.

(** C9 on the bench, with another client queued behind. *)
Lemma water_empty_pump_IndexError_witness :
  let client := ready_client 1 water_empty_pump_request in
  let next := ready_client 2 moisture_request in
  let w := set_client_queue [client; next] initial_world in
  let w1 := set_client_queue [next] w in
  handle_connection bench (endpoints bench) client WORKER_BUFFER_SIZE w1
    = (Raise IndexError, w1)
  /\ worker_turn bench (endpoints bench) WORKER_BUFFER_SIZE w
     = sleep bench (PyInt 0) w1
  /\ (fault bench (calls w) = None ->
      forall turns : nat,
        worker bench (endpoints bench) (S turns) WORKER_BUFFER_SIZE w
        = worker bench (endpoints bench) turns WORKER_BUFFER_SIZE
            (emit (ESleep (PyInt 0)) (next_call w1)))
  /\ extract_request (take WORKER_BUFFER_SIZE (incoming client))
     = Some ("/water", "POST", ∅, <["volume" := "5"]> (<["pump" := ""]> ∅))
  /\ (forall w0 : World,
        water bench (Some "") (Some "5") w0 = (Raise IndexError, w0)).
Proof.
  intros client next w w1.
  apply (water_empty_pump_IndexError bench w client [next]); reflexivity.
Defined.

Lemma moisture_request_parsed :
  extract_request (take WORKER_BUFFER_SIZE moisture_request)
  = Some ("/moisture", "GET", ∅, ∅).
Proof. vm_compute. reflexivity. Qed.

(** Sampling the sensors does not touch the global [actual_moisture]. *)
Lemma poll_keeps_moisture (E : Env) (fuel i : nat) :
  forall (start : Z) (s : Sample) (w w' : World) r,
    poll E fuel i start s w = (r, w') ->
    actual_moisture w' = actual_moisture w.
Proof.
  induction fuel as [|fuel IH]; intros start s w w' r H.
  - inversion H; reflexivity.
  - cbn [poll] in H.
    destruct (ticks s <? 10)%Z; [|inversion H; reflexivity].
    unfold bind at 1 in H. unfold time_monotonic_ns at 1 in H.
    destruct (_ - start <=? 1000000000)%Z; [|inversion H; reflexivity].
    unfold bind at 1 in H. unfold read_sensor at 1 in H.
    unfold bind at 1 in H.
    destruct (negb _); [destruct (first s)|].
    all: run_in H.
    all: destruct (fault E _); [inversion H; reflexivity|].
    all: apply IH in H; exact H.
Qed.

Lemma moisture_readings_keeps_moisture (E : Env) (fuel : nat)
    (w w' : World) r :
  moisture_readings E fuel w = (r, w') ->
  actual_moisture w' = actual_moisture w.
Proof.
  unfold moisture_readings.
  generalize (@nil pynum) as results. generalize [0; 1; 2]%nat as positions.
  intros positions; revert w.
  induction positions as [|i rest IH]; intros w results H.
  - inversion H; reflexivity.
  - cbn [readings_loop] in H. unfold bind at 1 in H.
    unfold read_position in H.
    unfold bind at 1 in H. unfold sample_position in H.
    unfold bind at 1 in H. unfold read_sensor at 1 in H.
    unfold bind at 1 in H. unfold time_monotonic_ns at 1 in H.
    destruct (poll E fuel i _ _ _) as [[[s|]|e] w1] eqn:P;
      apply poll_keeps_moisture in P; world_simpl.
    + unfold bind, lift, ret in H.
      destruct (moisture_score s); [|inversion H; subst; exact P].
      apply IH in H. congruence.
    + unfold ret in H. inversion H; subst; exact P.
    + inversion H; subst; exact P.
Qed.

(** C10: while [actual_moisture] still has its initial value, which is
    the case in the initial state and throughout the sampling of the first
    sweep, a [GET /moisture] is answered ["200 OK"] with the body
    ["[0, 0, 0]"]. *)
Theorem moisture_before_first_sweep :
  forall (E : Env) (w : World) (client : Client),
    incoming client = moisture_request ->
    would_block client = 0%nat ->
    send_fails client = false ->
    actual_moisture w = initial_moisture ->
    handle_connection E (endpoints E) client WORKER_BUFFER_SIZE w
      = (Ok tt,
         emit (EClose (cid client))
           (emit (ESend (cid client)
                    ("HTTP/1.1 200 OK" ++ CRLF ++ CRLF ++ "[0, 0, 0]")) w))
    /\ actual_moisture initial_world = [PyInt 0; PyInt 0; PyInt 0]
    /\ (forall (fuel : nat) r (w1 : World),
          moisture_readings E fuel w = (r, w1) ->
          actual_moisture w1 = initial_moisture).
Proof.
  intros E w client Hin Hb Hs Hm.
  repeat split.
  - rewrite handle_connection_ready by exact Hb.
    rewrite Hin, moisture_request_parsed. cbv zeta.
    unfold bind at 1. unfold handle_api. rewrite endpoints_moisture.
    cbn [ep_method ep_func String.eqb Ascii.eqb Bool.eqb].
    unfold moisture, load_moisture, bind, lift, ret, send, close.
    rewrite Hm, Hs. reflexivity.
  - intros fuel r w1 H.
    apply moisture_readings_keeps_moisture in H. congruence.
Qed.

(** C10 on the bench, in the initial state. *)
Lemma moisture_before_first_sweep_witness :
  let client := ready_client 1 moisture_request in
  handle_connection bench (endpoints bench) client WORKER_BUFFER_SIZE
    initial_world
    = (Ok tt,
       emit (EClose (cid client))
         (emit (ESend (cid client)
                  ("HTTP/1.1 200 OK" ++ CRLF ++ CRLF ++ "[0, 0, 0]"))
            initial_world))
  /\ actual_moisture initial_world = [PyInt 0; PyInt 0; PyInt 0]
  /\ (forall (fuel : nat) r (w1 : World),
        moisture_readings bench fuel initial_world = (r, w1) ->
        actual_moisture w1 = initial_moisture).
Proof.
  intros client.
  apply (moisture_before_first_sweep bench initial_world client); reflexivity.
Defined.

(** ** Moisture *)

Lemma SFcompare_antisym (x y : spec_float) :
  SFcompare y x = option_map CompOpp (SFcompare x y).
Proof.
  destruct x as [sx| sx | | sx mx ex], y as [sy | sy | | sy my ey];
    try reflexivity;
    try (destruct sx; reflexivity);
    try (destruct sy; reflexivity);
    try (destruct sx, sy; reflexivity).
  cbn [SFcompare option_map].
  destruct sx, sy; try reflexivity.
  - rewrite (Z.compare_antisym ex ey).
    destruct (ex ?= ey)%Z; cbn [CompOpp]; try reflexivity.
    rewrite (Pos.compare_cont_antisym mx my Eq). reflexivity.
  - rewrite (Z.compare_antisym ex ey).
    destruct (ex ?= ey)%Z; cbn [CompOpp]; try reflexivity.
    rewrite (Pos.compare_cont_antisym mx my Eq).
    cbn [CompOpp]. reflexivity.
Qed.

(** A float at most [y] is not above [y]. *)
Lemma leb_not_ltb (x y : float) :
  (x <=? y)%float = true -> (y <? x)%float = false.
Proof.
  rewrite leb_spec, ltb_spec. unfold SFleb, SFltb.
  rewrite (SFcompare_antisym (Prim2SF x) (Prim2SF y)).
  destruct (SFcompare (Prim2SF x) (Prim2SF y)) as [[| |]|];
    cbn [option_map CompOpp]; congruence.
Qed.

Lemma float_of_Z_min_ns : float_of_Z 20000000 = 20000000%float.
Proof. vm_compute. reflexivity. Qed.

Lemma float_of_Z_max_ns : float_of_Z 80000000 = 80000000%float.
Proof. vm_compute. reflexivity. Qed.

Lemma float_of_Z_span_ns : float_of_Z 60000000 = 60000000%float.
Proof. vm_compute. reflexivity. Qed.

Lemma float_of_Z_100 : float_of_Z 100 = 100%float.
Proof. vm_compute. reflexivity. Qed.

(** Without a transition the score is the float zero. *)
Lemma moisture_score_flat (s : Sample) :
  first s = None -> moisture_score s = Ok (PyFloat 0).
Proof. intros H. unfold moisture_score. rewrite H. reflexivity. Qed.

(** The clamping and rescaling of the code, on an average period that is
    a float, is the formula of the spec. *)
Lemma scale_spec (P : float) :
  let min_ns := PyInt 20000000 in
  let max_ns := PyInt 80000000 in
  let average := Py.max min_ns (Py.min max_ns (PyFloat P)) in
  rbind (truediv (Py.sub average min_ns) (Py.sub max_ns min_ns)) (fun q =>
    Ok (round_2 (Py.mul q (PyInt 100))))
  = Ok (PyFloat (spec_score P)).
Proof.
  cbv zeta.
  unfold spec_score, clamp, fmin, fmax.
  unfold Py.min at 1. unfold Py.lt at 1. cbn [to_float].
  rewrite float_of_Z_max_ns.
  destruct (P <? 80000000)%float.
  - unfold Py.max at 1. unfold Py.lt at 1. cbn [to_float].
    rewrite float_of_Z_min_ns.
    destruct (20000000 <? P)%float.
    + unfold Py.sub, truediv, Py.mul, round_2, rbind.
      cbn [to_float is_zero_num].
      rewrite float_of_Z_min_ns, float_of_Z_100.
      change (80000000 - 20000000)%Z with 60000000%Z.
      cbn [Z.eqb]. rewrite float_of_Z_span_ns. reflexivity.
    + vm_compute. reflexivity.
  - vm_compute. reflexivity.
Qed.

(** With transitions the code computes the spec's formula on the average
    period. *)
Lemma moisture_score_spec (s : Sample) (f l : Z) :
  first s = Some f -> last s = Some l ->
  f <> 0%Z -> l <> 0%Z -> ticks s <> 0%Z ->
  moisture_score s
  = Ok (PyFloat (spec_score (int_truediv (l - f) (ticks s)))).
Proof.
  intros Hf Hl Hf0 Hl0 Ht.
  unfold moisture_score. rewrite Hf, Hl.
  cbn [not_time default from_option id].
  apply Z.eqb_neq in Hf0, Hl0, Ht. rewrite Hf0, Hl0. cbn [orb].
  unfold truediv at 1. cbn [is_zero_num]. rewrite Ht. cbn [rbind].
  apply scale_spec.
Qed.

(** A float at most the lower bound is below the upper bound. *)
Lemma leb_min_ltb_max (P : float) :
  (P <=? 20000000)%float = true -> (P <? 80000000)%float = true.
Proof.
  rewrite leb_spec, ltb_spec. unfold SFleb, SFltb.
  replace (Prim2SF 20000000) with (S754_finite false 5368709120000000 (-28))
    by (vm_compute; reflexivity).
  replace (Prim2SF 80000000) with (S754_finite false 5368709120000000 (-26))
    by (vm_compute; reflexivity).
  destruct (Prim2SF P) as [sp | sp | | sp mp ep]; cbn [SFcompare].
  - reflexivity.
  - destruct sp; congruence.
  - congruence.
  - destruct sp; [reflexivity|].
    destruct (Z.compare_spec ep (-28)) as [->| Hlt | Hgt].
    + reflexivity.
    + intros _. destruct (Z.compare_spec ep (-26)); try reflexivity; lia.
    + intros H; discriminate H.
Qed.

(** Periods at or below the lower bound score 0, periods at or above the
    upper bound score 100. *)
Lemma spec_score_saturates (P : float) :
  ((P <=? 20000000)%float = true -> spec_score P = 0%float)
  /\ ((80000000 <=? P)%float = true -> spec_score P = 100%float).
Proof.
  unfold spec_score, clamp, fmin, fmax. split; intros H.
  - rewrite (leb_min_ltb_max _ H), (leb_not_ltb _ _ H).
    vm_compute. reflexivity.
  - rewrite (leb_not_ltb _ _ H). vm_compute. reflexivity.
Qed.

Lemma poll_S (E : Env) (fuel i : nat) (start : Z) (s : Sample) :
  poll E (S fuel) i start s
  = if (ticks s <? 10)%Z then
      now <- time_monotonic_ns E ;;
      if (now - start <=? 1000000000)%Z then
        value <- read_sensor E i ;;
        s' <- (if negb (Bool.eqb (last_value s) value) then
                 first' <- match first s with
                           | None => t <- time_monotonic_ns E ;; ret (Some t)
                           | Some t => ret (Some t)
                           end ;;
                 last' <- time_monotonic_ns E ;;
                 ret {| first := first';
                        last := Some last';
                        ticks := ticks s + 1;
                        last_value := value |}
               else ret s) ;;
        sleep E (PyInt 0) ;;
        poll E fuel i start s'
      else ret (Some s)
    else ret (Some s).
Proof. reflexivity. Qed.

(** The sampling loop keeps its locals well formed. *)
Lemma poll_well_sampled (E : Env) (fuel i : nat) :
  forall (start : Z) (s s' : Sample) (w w' : World),
    well_sampled E s ->
    poll E fuel i start s w = (Ok (Some s'), w') ->
    well_sampled E s'.
Proof.
  induction fuel as [|fuel IH]; intros start s s' w w' Hs H.
  - inversion H.
  - rewrite poll_S in H.
    destruct (ticks s <? 10)%Z; [|inversion H; subst; exact Hs].
    unfold bind at 1 in H. unfold time_monotonic_ns at 1 in H.
    destruct (_ - start <=? 1000000000)%Z; [|inversion H; subst; exact Hs].
    unfold bind at 1 in H. unfold read_sensor at 1 in H.
    unfold bind at 1 in H.
    unfold well_sampled in Hs.
    destruct (negb _); [destruct (first s) as [f|] eqn:Hf|].
    all: run_in H.
    all: destruct (fault E _); [inversion H|].
    all: apply IH in H; [exact H|].
    + destruct (last s) as [l|]; [|contradiction].
      unfold well_sampled; cbn [first last ticks].
      destruct Hs as (Ht & Hf' & _). repeat split; eauto. lia.
    + destruct (last s) as [l|]; [contradiction|].
      unfold well_sampled; cbn [first last ticks].
      repeat split; eauto. lia.
    + unfold well_sampled. exact Hs.
Qed.

(** Once the clock has passed the one-second ceiling for good, the
    sampling loop ends; [fuel] turns are enough when the clock passes the
    ceiling within [fuel] further readings. *)
Lemma poll_terminates (E : Env) (i : nat) (start : Z) (N : nat) :
  (forall n, fault E n = None) ->
  (forall n, (N <= n)%nat -> (start + 1000000000 < monotonic_ns E n)%Z) ->
  forall (fuel : nat) (s : Sample) (w : World),
    (N < clock_reads w + S fuel)%nat ->
    exists (s' : Sample) (w' : World),
      poll E (S fuel) i start s w = (Ok (Some s'), w').
Proof.
  intros Hfault Hclock.
  induction fuel as [|fuel IH]; intros s w Hn.
  all: rewrite poll_S.
  all: destruct (ticks s <? 10)%Z; [|eexists; eexists; reflexivity].
  all: unfold bind at 1; unfold time_monotonic_ns at 1.
  all: destruct (_ - start <=? 1000000000)%Z eqn:C;
         [|eexists; eexists; reflexivity].
  all: apply Z.leb_le in C.
  all: assert (Hc : (clock_reads w < N)%nat)
         by (destruct (Nat.lt_ge_cases (clock_reads w) N) as [|Hge];
             [assumption | specialize (Hclock _ Hge); lia]).
  - lia.
  - unfold bind at 1. unfold read_sensor at 1. unfold bind at 1.
    destruct (negb _); [destruct (first s)|].
    all: cbv [bind ret sleep fallible time_monotonic_ns]; world_simpl.
    all: rewrite Hfault; world_simpl.
    all: apply IH; world_simpl; lia.
Qed.

(** C4: with no injected fault, a clock that never reads 0 and that passes
    every instant for good, the sampling of a position ends (for every
    large enough bound on its polls); if no transition was seen the score
    is the float 0.0; otherwise the score is the spec's formula
    [round2 ((clamp P 20e6 80e6 - 20e6) / 60e6 * 100)] on
    [P = (last - first) / ticks].  The sweep is the three positions in
    order.  The formula gives 0 at 20e6, 100 at 80e6, 50 at 50e6, 0 at or
    below the lower bound and 100 at or above the upper bound. *)
Theorem moisture_sample_score :
  forall (E : Env) (i : nat) (w : World),
    (forall n, fault E n = None) ->
    (forall n, monotonic_ns E n <> 0%Z) ->
    (forall t : Z, exists N : nat,
        forall n, (N <= n)%nat -> (t < monotonic_ns E n)%Z) ->
    (exists fuel0 : nat, forall fuel : nat, (fuel0 <= fuel)%nat ->
       exists (s : Sample) (v : pynum) (w' : World),
         sample_position E fuel i w = (Ok (Some s), w')
         /\ read_position E fuel i w = (Ok (Some v), w')
         /\ match first s, last s with
            | None, None => ticks s = 0%Z /\ v = PyFloat 0
            | Some f, Some l =>
                (0 < ticks s)%Z
                /\ v = PyFloat (spec_score (int_truediv (l - f) (ticks s)))
            | _, _ => False
            end)
    /\ (forall (fuel : nat) (w0 : World),
          moisture_readings E fuel w0
          = (r0 <- read_position E fuel 0 ;;
             match r0 with
             | None => ret None
             | Some v0 =>
                 r1 <- read_position E fuel 1 ;;
                 match r1 with
                 | None => ret None
                 | Some v1 =>
                     r2 <- read_position E fuel 2 ;;
                     match r2 with
                     | None => ret None
                     | Some v2 => ret (Some [v0; v1; v2])
                     end
                 end
             end) w0)
    /\ spec_score 20000000 = 0%float
    /\ spec_score 80000000 = 100%float
    /\ spec_score 50000000 = 50%float
    /\ (forall P : float,
          (P <=? 20000000)%float = true -> spec_score P = 0%float)
    /\ (forall P : float,
          (80000000 <=? P)%float = true -> spec_score P = 100%float).
Proof.
  intros E i w Hfault Hnz Hclock.
  split; [|split; [intros fuel w0; reflexivity|];
           split; [vm_compute; reflexivity|];
           split; [vm_compute; reflexivity|];
           split; [vm_compute; reflexivity|];
           split; intros P; apply spec_score_saturates].
  destruct (Hclock (monotonic_ns E (clock_reads w) + 1000000000)%Z)
    as [N HN].
  exists (S N). intros [|fuel] Hfuel; [lia|].
  set (s0 := {| first := None; last := None; ticks := 0;
                last_value := sensor_value E i (sensor_reads w) |}).
  destruct (poll_terminates E i (monotonic_ns E (clock_reads w)) N Hfault HN
              fuel s0 (next_clock_read (next_sensor_read w)))
    as (s & w' & Hp); [world_simpl; lia|].
  assert (Hs : sample_position E (S fuel) i w = (Ok (Some s), w')).
  { unfold sample_position. unfold bind at 1. unfold read_sensor at 1.
    unfold bind at 1. unfold time_monotonic_ns at 1. world_simpl.
    exact Hp. }
  assert (Hw : well_sampled E s).
  { eapply poll_well_sampled; [|exact Hp]. reflexivity. }
  unfold well_sampled in Hw.
  destruct (first s) as [f|] eqn:Hf, (last s) as [l|] eqn:Hl;
    try contradiction.
  - destruct Hw as (Ht & [nf ->] & [nl ->]).
    exists s. eexists. exists w'.
    split; [exact Hs|]. rewrite Hf, Hl.
    split; [|split; [exact Ht | reflexivity]].
    unfold read_position. unfold bind at 1. rewrite Hs.
    unfold bind, lift, ret.
    rewrite (moisture_score_spec s _ _ Hf Hl) by (auto; lia).
    reflexivity.
  - exists s. eexists. exists w'.
    split; [exact Hs|]. rewrite Hf, Hl.
    split; [|split; [exact Hw | reflexivity]].
    unfold read_position. unfold bind at 1. rewrite Hs.
    unfold bind, lift, ret.
    rewrite (moisture_score_flat s Hf). reflexivity.
Qed.

(** C4 on the bench, for position 0 from the initial state. *)
Lemma moisture_sample_score_witness :
  (exists fuel0 : nat, forall fuel : nat, (fuel0 <= fuel)%nat ->
     exists (s : Sample) (v : pynum) (w' : World),
       sample_position bench fuel 0 initial_world = (Ok (Some s), w')
       /\ read_position bench fuel 0 initial_world = (Ok (Some v), w')
       /\ match first s, last s with
          | None, None => ticks s = 0%Z /\ v = PyFloat 0
          | Some f, Some l =>
              (0 < ticks s)%Z
              /\ v = PyFloat (spec_score (int_truediv (l - f) (ticks s)))
          | _, _ => False
          end)
  /\ (forall (fuel : nat) (w0 : World),
        moisture_readings bench fuel w0
        = (r0 <- read_position bench fuel 0 ;;
           match r0 with
           | None => ret None
           | Some v0 =>
               r1 <- read_position bench fuel 1 ;;
               match r1 with
               | None => ret None
               | Some v1 =>
                   r2 <- read_position bench fuel 2 ;;
                   match r2 with
                   | None => ret None
                   | Some v2 => ret (Some [v0; v1; v2])
                   end
               end
           end) w0)
  /\ spec_score 20000000 = 0%float
  /\ spec_score 80000000 = 100%float
  /\ spec_score 50000000 = 50%float
  /\ (forall P : float,
        (P <=? 20000000)%float = true -> spec_score P = 0%float)
  /\ (forall P : float,
        (80000000 <=? P)%float = true -> spec_score P = 100%float).
Proof.
  apply (moisture_sample_score bench 0%nat initial_world).
  - intros n. reflexivity.
  - intros n. cbn [monotonic_ns bench]. lia.
  - intros t. exists (Z.to_nat t). intros n Hn.
    cbn [monotonic_ns bench]. lia.
Defined.

(** ** Containment of failures *)

Lemma worker_turn_raise (E : Env) (eps : gmap string Endpoint)
    (buffer_size : nat) (w w1 : World) (client : Client) (q : list Client)
    (e : exn) :
  client_queue w = client :: q ->
  handle_connection E eps client buffer_size (set_client_queue q w)
    = (Raise e, w1) ->
  worker_turn E eps buffer_size w
  = if exn_eqb e IndexError then sleep E (PyInt 0) w1 else (Raise e, w1).
Proof.
  intros Hq Hc.
  unfold worker_turn, try_except_only, try_except.
  unfold bind at 1. unfold popleft. rewrite Hq. cbn [deque_popleft].
  rewrite Hc. destruct (exn_eqb e IndexError); reflexivity.
Qed.

Lemma exn_eqb_eq (a b : exn) : exn_eqb a b = true <-> a = b.
Proof. split; [destruct a, b; simpl; congruence | intros ->; destruct b; reflexivity]. Qed.

(** C2, amended: when the handling of the client at the head of the queue
    raises [IndexError], the worker yields and, unless that yield is itself
    interrupted, goes on with the rest of the queue; when it raises any
    other exception, the worker task ends with that exception. *)
Theorem worker_contains_only_IndexError :
  forall (E : Env) (eps : gmap string Endpoint) (buffer_size : nat)
         (w w1 : World) (client : Client) (q : list Client) (e : exn),
    client_queue w = client :: q ->
    handle_connection E eps client buffer_size (set_client_queue q w)
      = (Raise e, w1) ->
    (e = IndexError ->
       worker_turn E eps buffer_size w = sleep E (PyInt 0) w1
       /\ (fault E (calls w1) = None ->
           forall turns : nat,
             worker E eps (S turns) buffer_size w
             = worker E eps turns buffer_size
                 (emit (ESleep (PyInt 0)) (next_call w1))))
    /\ (e <> IndexError ->
        forall turns : nat,
          worker E eps (S turns) buffer_size w = (Raise e, w1)).
Proof.
  intros E eps buffer_size w w1 client q e Hq Hc.
  pose proof (worker_turn_raise E eps buffer_size w w1 client q e Hq Hc) as Ht.
  split.
  - intros ->. cbn [exn_eqb] in Ht. split; [exact Ht|].
    intros F turns. cbn [worker]. unfold bind at 1. rewrite Ht.
    unfold sleep, bind, fallible, ret. rewrite F. reflexivity.
  - intros Hne turns.
    destruct (exn_eqb e IndexError) eqn:Heq.
    + apply exn_eqb_eq in Heq. contradiction.
    + cbn [worker]. unfold bind at 1. rewrite Ht. reflexivity.
Qed.

(** The amended C2 on the bench, at the request with [volume=abc]. *)
Lemma worker_contains_only_IndexError_witness :
  let c1 := ready_client 1 water_bad_volume_request in
  let c2 := ready_client 2 moisture_request in
  let w0 := set_client_queue [c1; c2] initial_world in
  let w1 := set_client_queue [c2] initial_world in
  (ValueError = IndexError ->
     worker_turn bench (endpoints bench) WORKER_BUFFER_SIZE w0
       = sleep bench (PyInt 0) w1
     /\ (fault bench (calls w1) = None ->
         forall turns : nat,
           worker bench (endpoints bench) (S turns) WORKER_BUFFER_SIZE w0
           = worker bench (endpoints bench) turns WORKER_BUFFER_SIZE
               (emit (ESleep (PyInt 0)) (next_call w1))))
  /\ (ValueError <> IndexError ->
      forall turns : nat,
        worker bench (endpoints bench) (S turns) WORKER_BUFFER_SIZE w0
        = (Raise ValueError, w1)).
Proof.
  intros c1 c2 w0 w1.
  apply (worker_contains_only_IndexError bench (endpoints bench) WORKER_BUFFER_SIZE w0 w1 c1 [c2] ValueError).
  - reflexivity.
  - vm_compute. reflexivity.
Defined.

(** C2, counterexample: a [POST /water] with [volume=abc] makes the worker
    that serves it end with [ValueError]; the client queued behind it stays
    in the queue, and nothing is sent or closed. *)
Lemma worker_dies_on_ValueError :
  let c1 := ready_client 1 water_bad_volume_request in
  let c2 := ready_client 2 moisture_request in
  let w0 := set_client_queue [c1; c2] initial_world in
  let run := worker bench (endpoints bench) 2 WORKER_BUFFER_SIZE w0 in
  fst run = Raise ValueError
  /\ client_queue (snd run) = [c2]
  /\ trace (snd run) = [].
Proof. vm_compute. repeat split. Qed.

(** * Further properties *)

Import Shape.

(** ** The accept loop and the queue *)




Lemma newest_length {A} (n : nat) (l : list A) :
  (length (newest n l) <= n)%nat.
Proof. unfold newest. rewrite length_skipn. lia. Qed.



(** ** Pumps and the distance sensor *)

Lemma extends_without_refl (bad : event -> bool) (w : World) :
  extends_without bad w w.
Proof. exists []. rewrite app_nil_r. split; reflexivity. Qed.

Lemma extends_without_trans (bad : event -> bool) (w1 w2 w3 : World) :
  extends_without bad w1 w2 -> extends_without bad w2 w3 ->
  extends_without bad w1 w3.
Proof.
  intros (a & Ta & Fa) (b & Tb & Fb). exists (a ++ b)%list.
  rewrite Tb, Ta, <- app_assoc. split; [reflexivity|].
  rewrite forallb_app, Fa, Fb. reflexivity.
Qed.

(** X2: with a pump label that is not in [label2pin], [dispense_water]
    always ends in [KeyError], also when the distance sample had failed
    with another exception, and it never writes to a pump pin. *)
Theorem dispense_water_unknown_pump :
  forall (E : Env) (pump : string) (ml : pynum) (w : World),
    label2pin !! pump = None ->
    exists w' : World,
      dispense_water E pump ml w = (Raise KeyError, w')
      /\ extends_without pin_event w w'
      /\ (forall q : pin, pin_value w' q = pin_value w q).
Proof.
  intros E pump ml w L.
  destruct (dispense_water E pump ml w) as [r w'] eqn:H.
  unfold_dispense H. rewrite L in H.
  split_faults E H.
  all: try (destruct (tof_distance E _) eqn:D;
            cbn [truediv is_zero_num Z.of_nat Pos.of_succ_nat Z.eqb add] in H).
  all: inversion H; subst; clear H.
  all: eexists; split; [reflexivity|].
  all: split; [|intros q; reflexivity].
  all: unfold extends_without; trace_shape; eexists; split; reflexivity.
Qed.

(** X2 on the bench: the label [x]. *)
Lemma dispense_water_unknown_pump_witness :
  exists w' : World,
    dispense_water bench "x" (PyFloat 5) initial_world = (Raise KeyError, w')
    /\ extends_without pin_event initial_world w'
    /\ (forall q : pin, pin_value w' q = pin_value initial_world q).
Proof.
  apply (dispense_water_unknown_pump bench "x" (PyFloat 5) initial_world).
  vm_compute. reflexivity.
Defined.

(** The loop of [sample_tof] never stops the ranging and never touches a
    pump or a socket. *)
Lemma sample_loop_no_stop (E : Env) (count : nat) :
  forall (distance : pynum) (w w' : World) (r : Res pynum),
    sample_loop E count distance w = (r, w') ->
    exists evs : list event,
      trace w' = (trace w ++ evs)%list
      /\ ~ In (ETof stop_ranging) evs
      /\ (calls w <= calls w')%nat.
Proof.
  induction count as [|count IH]; intros distance w w' r H.
  - inversion H; subst. exists []. rewrite app_nil_r. auto.
  - cbn [sample_loop] in H.
    unfold tof_call, tof_read, bind, fallible, ret in H. world_simpl.
    split_faults E H.
    4: { apply IH in H. destruct H as (evs & T & N & C). world_simpl.
         eexists. rewrite T. rewrite <- !app_assoc. cbn [app].
         split; [reflexivity|]. split; [|lia].
         cbn [In]. intros [|[|[|]]]; try discriminate. contradiction. }
    all: inversion H; subst; trace_shape.
    all: try (exists []; rewrite app_nil_r; split; [reflexivity|]).
    all: try (eexists; split; [reflexivity|]).
    all: split; [|lia]; cbn [In]; intuition discriminate.
Qed.

Lemma truediv_by_count (distance : pynum) (count : nat) :
  (count <> 0%nat -> exists f, truediv distance (PyInt (Z.of_nat count)) = Ok (PyFloat f))
  /\ (count = 0%nat -> truediv distance (PyInt (Z.of_nat count)) = Raise ZeroDivisionError).
Proof.
  unfold truediv. cbn [is_zero_num]. split; intros H.
  - destruct (Z.eqb_spec (Z.of_nat count) 0) as [Hz|_]; [lia|].
    destruct distance; eexists; reflexivity.
  - subst count. reflexivity.
Qed.

(** X3: [sample_tof] tells the sensor to stop ranging exactly when the
    sample succeeds, so a sample that fails leaves the sensor ranging; and
    with [count = 0] it never returns a distance. *)
Theorem sample_tof_stops_ranging_iff_ok :
  forall (E : Env) (count : nat) (w w' : World) (r : Res pynum),
    sample_tof E count w = (r, w') ->
    exists evs : list event,
      trace w' = (trace w ++ evs)%list
      /\ (count <> 0%nat ->
          (In (ETof stop_ranging) evs <-> exists cm, r = Ok cm))
      /\ (count = 0%nat -> forall cm, r <> Ok cm).
Proof.
  intros E count w w' r H.
  unfold sample_tof in H.
  unfold bind at 1 in H. unfold tof_call at 1 in H.
  unfold bind, fallible, ret in H. world_simpl.
  destruct (fault E (calls w)) eqn:F0.
  { inversion H; subst. exists []. rewrite app_nil_r. world_simpl.
    split; [reflexivity|]. split.
    - intros _. split; [intros []|intros [cm Hcm]; discriminate].
    - intros _ cm Hcm; discriminate. }
  destruct (sample_loop E count (PyInt 0) _) as [[distance|e] w1] eqn:L;
    apply sample_loop_no_stop in L; destruct L as (evs & T & N & C);
    world_simpl.
  2: { inversion H; subst. eexists. rewrite T, <- app_assoc. cbn [app].
       split; [reflexivity|]. split.
       - intros _. split; [|intros [cm Hcm]; discriminate].
         cbn [In]. intros [|]; [discriminate|contradiction].
       - intros _ cm Hcm; discriminate. }
  unfold tof_call, bind, fallible, ret, lift in H. world_simpl.
  destruct (fault E (calls w1)) eqn:F1.
  { inversion H; subst. world_simpl. eexists. rewrite T, <- app_assoc.
    cbn [app]. split; [reflexivity|]. split.
    - intros _. split; [|intros [cm Hcm]; discriminate].
      cbn [In]. intros [|]; [discriminate|contradiction].
    - intros _ cm Hcm; discriminate. }
  inversion H; subst; clear H. world_simpl.
  eexists. rewrite T, <- !app_assoc. cbn [app].
  split; [reflexivity|].
  destruct (truediv_by_count distance count) as [Hpos Hzero].
  split.
  - intros Hc. destruct (Hpos Hc) as [f ->]. split; [eauto|].
    intros _. cbn [In]. right. apply in_or_app. right. left. reflexivity.
  - intros Hc cm. rewrite (Hzero Hc). discriminate.
Qed.

(** X3 on the bench: one successful sample. *)
Lemma sample_tof_stops_ranging_iff_ok_witness :
  let run := sample_tof bench 1 initial_world in
  exists evs : list event,
    trace (snd run) = (trace initial_world ++ evs)%list
    /\ (1%nat <> 0%nat ->
        (In (ETof stop_ranging) evs <-> exists cm, fst run = Ok cm))
    /\ (1%nat = 0%nat -> forall cm, fst run <> Ok cm).
Proof.
  intros run.
  apply (sample_tof_stops_ranging_iff_ok bench 1 initial_world (snd run)
           (fst run)).
  vm_compute. reflexivity.
Defined.

(** ** Static pages *)

Lemma Router_table_target (name npath : string) :
  Router_table !! name = Some npath ->
  npath = "index.html" /\ (name = "water" \/ name = "").
Proof.
  unfold Router_table. intros H.
  apply lookup_insert_Some in H. destruct H as [[<- <-]|[_ H]]; [auto|].
  apply lookup_insert_Some in H. destruct H as [[<- <-]|[_ H]]; [auto|].
  rewrite lookup_empty in H. discriminate.
Qed.

Lemma Router_table_index : Router_table !! "index.html" = None.
Proof. reflexivity. Qed.

(** Resolving [index.html] needs no further level. *)
Lemma path2html_index (E : Env) (k : nat) :
  path2html E (S k) "index.html" = path2html E 1 "index.html".
Proof.
  cbn [path2html].
  change (strip_char "/" "index.html") with "index.html".
  rewrite Router_table_index. reflexivity.
Qed.

Lemma read_page_not_recursion (E : Env) (name status : string) :
  rbind (read_html E name) (fun text => Ok (text, status))
  <> Raise RecursionError.
Proof. unfold read_html. destruct (find _ _); cbn [rbind]; discriminate. Qed.

Lemma path2html_two_levels_aux (E : Env) (path : string) :
  path2html E recursion_limit path = path2html E 2 path
  /\ forall d, path2html E (S (S d)) path = path2html E 2 path.
Proof.
  assert (Hd : forall d, path2html E (S (S d)) path = path2html E 2 path).
  { intros d. cbn [path2html].
    destruct (negb _); [|reflexivity].
    destruct (Router_table !! strip_char "/" path) as [npath|] eqn:R;
      [|reflexivity].
    apply Router_table_target in R. destruct R as [-> _].
    cbn [is_empty].
    apply (path2html_index E d). }
  split; [apply (Hd 998%nat) | exact Hd].
Qed.

(** X4: the aliases of the routing table lead to a name that is not an
    alias itself, so [path2html] never goes deeper than two levels: from
    depth 2 on its result does not depend on the depth left, and at the
    interpreter's limit it does not end in [RecursionError]. *)
Theorem path2html_two_levels :
  forall (E : Env) (path : string) (depth : nat),
    path2html E (S (S depth)) path = path2html E 2 path
    /\ path2html E recursion_limit path = path2html E 2 path
    /\ path2html E 2 path <> Raise RecursionError.
Proof.
  intros E path depth.
  destruct (path2html_two_levels_aux E path) as [Hl Hd].
  split; [apply Hd|]. split; [exact Hl|].
  cbn [path2html].
  destruct (negb _).
  - destruct (Router_table !! strip_char "/" path) as [npath|] eqn:R.
    + apply Router_table_target in R. destruct R as [-> _].
      cbn [is_empty].
      change (strip_char "/" "index.html") with "index.html".
      rewrite Router_table_index.
      destruct (negb _).
      * apply read_page_not_recursion.
      * destruct (find _ _); [|discriminate].
        apply read_page_not_recursion.
    + apply read_page_not_recursion.
  - destruct (find _ _); [|discriminate].
    apply read_page_not_recursion.
Qed.

Lemma listed_file (l : list (string * string)) (name : string) :
  existsb (String.eqb name) (map fst l) = true ->
  exists text,
    find (fun file => String.eqb file name) (map fst l) = Some name
    /\ find (fun f => String.eqb (fst f) name) l = Some (name, text).
Proof.
  induction l as [|[n t] l IH]; cbn [map existsb find fst]; [discriminate|].
  rewrite (String.eqb_sym n name).
  destruct (String.eqb_spec name n) as [<-|Hne]; cbn [orb].
  - intros _. exists t. auto.
  - exact IH.
Qed.

Lemma read_html_listed (E : Env) (name text : string) :
  read_html E name = Ok text ->
  existsb (String.eqb name) (map fst (html E)) = true
  /\ find (fun f => String.eqb (fst f) name) (html E) = Some (name, text).
Proof.
  unfold read_html.
  induction (html E) as [|[n t] l IH]; cbn [map existsb find fst];
    [discriminate|].
  rewrite (String.eqb_sym n name).
  destruct (String.eqb_spec name n) as [<-|Hne]; cbn [orb snd].
  - intros [= ->]. auto.
  - exact IH.
Qed.

(** A name that is a file of [/html] is served with its content. *)
Lemma path2html_file (E : Env) (depth : nat) (path text : string) :
  read_html E (strip_char "/" path) = Ok text ->
  path2html E (S depth) path = Ok (text, "200 OK").
Proof.
  intros H. cbn [path2html].
  destruct (read_html_listed E _ _ H) as [Hex Hfind].
  rewrite Hex. cbn [negb].
  destruct (listed_file (html E) _ Hex) as (text' & -> & _).
  rewrite H. reflexivity.
Qed.

(** X5: when [/html] holds [index.html] and [error.html], [path2html]
    answers every path: a path that names a file gets that file with
    ["200 OK"]; a path that names no file gets [index.html] with ["200 OK"]
    if it is [""] or ["water"] once its slashes are stripped, and
    [error.html] with ["404 Not Found"] otherwise. *)
Theorem path2html_with_pages :
  forall (E : Env) (index error : string),
    read_html E "index.html" = Ok index ->
    read_html E "error.html" = Ok error ->
    forall path : string,
      let name := strip_char "/" path in
      (forall text, read_html E name = Ok text ->
         path2html E recursion_limit path = Ok (text, "200 OK"))
      /\ (existsb (String.eqb name) (map fst (html E)) = false ->
          path2html E recursion_limit path
          = if (String.eqb name "" || String.eqb name "water")%bool
            then Ok (index, "200 OK")
            else Ok (error, "404 Not Found"))
      /\ (exists body status,
            path2html E recursion_limit path = Ok (body, status)
            /\ (status = "200 OK" \/ status = "404 Not Found")).
Proof.
  intros E index error Hi He path name.
  assert (Hfile : forall text, read_html E name = Ok text ->
            path2html E recursion_limit path = Ok (text, "200 OK")).
  { intros text H. apply (path2html_file E 999 path text H). }
  assert (Hmiss : existsb (String.eqb name) (map fst (html E)) = false ->
            path2html E recursion_limit path
            = if (String.eqb name "" || String.eqb name "water")%bool
              then Ok (index, "200 OK")
              else Ok (error, "404 Not Found")).
  { intros Hex.
    destruct (path2html_two_levels_aux E path) as [-> _].
    cbn [path2html]. fold name. rewrite Hex. cbn [negb].
    destruct (Router_table !! name) as [npath|] eqn:R.
    - apply Router_table_target in R. destruct R as [-> Hn].
      cbn [is_empty].
      change (strip_char "/" "index.html") with "index.html".
      destruct (read_html_listed E _ _ Hi) as [Hex' _].
      rewrite Hex'. cbn [negb].
      destruct (listed_file (html E) _ Hex') as (text' & -> & _).
      rewrite Hi. cbn [rbind].
      destruct Hn as [->| ->]; reflexivity.
    - rewrite He. cbn [rbind].
      destruct (String.eqb_spec name "") as [Hn|_].
      { rewrite Hn in R. discriminate R. }
      destruct (String.eqb_spec name "water") as [Hn|_].
      { rewrite Hn in R. discriminate R. }
      reflexivity. }
  split; [exact Hfile|]. split; [exact Hmiss|].
  destruct (existsb (String.eqb name) (map fst (html E))) eqn:Hex.
  - destruct (listed_file (html E) _ Hex) as (text & _ & Hf).
    exists text, "200 OK". split; [|auto].
    apply Hfile. unfold read_html. rewrite Hf. reflexivity.
  - rewrite (Hmiss eq_refl).
    destruct (_ || _)%bool; eauto.
Qed.

(** X5 on the bench, at the path [/water]. *)
Lemma path2html_with_pages_witness :
  let name := strip_char "/" "/water" in
  (forall text, read_html bench name = Ok text ->
     path2html bench recursion_limit "/water" = Ok (text, "200 OK"))
  /\ (existsb (String.eqb name) (map fst (html bench)) = false ->
      path2html bench recursion_limit "/water"
      = if (String.eqb name "" || String.eqb name "water")%bool
        then Ok ("<html>index</html>", "200 OK")
        else Ok ("<html>error</html>", "404 Not Found"))
  /\ (exists body status,
        path2html bench recursion_limit "/water" = Ok (body, status)
        /\ (status = "200 OK" \/ status = "404 Not Found")).
Proof.
  apply (path2html_with_pages bench "<html>index</html>" "<html>error</html>");
    reflexivity.
Defined.

(** ** The request parser, continued *)

Lemma prefix_char (c : ascii) (s : string) :
  String.prefix (String c "") s
  = match s with
    | String a _ => Ascii.eqb a c
    | "" => false
    end.
Proof.
  destruct s as [|a r]; cbn [String.prefix]; [reflexivity|].
  destruct (ascii_dec c a) as [->|Hne].
  - rewrite Ascii.eqb_refl. destruct r; reflexivity.
  - symmetry. apply Ascii.eqb_neq. congruence.
Qed.

(** Cutting at the first occurrence of a character: what precedes it does
    not contain it. *)
Lemma find_sep_char (c : ascii) (s : string) :
  match find_sep (String c "") s with
  | Some (b, a) => occurs c b = false /\ s = b ++ String c a
  | None => occurs c s = false
  end.
Proof.
  induction s as [|x r IH].
  - reflexivity.
  - cbn [find_sep]. rewrite prefix_char.
    destruct (Ascii.eqb_spec x c) as [->|Hne].
    + cbn [String.length drop occurs]. auto.
    + destruct (find_sep (String c "") r) as [[b a]|].
      * destruct IH as [Ho ->]. cbn [occurs].
        apply Ascii.eqb_neq in Hne. rewrite Hne, Ho. auto.
      * cbn [occurs]. apply Ascii.eqb_neq in Hne. rewrite Hne. exact IH.
Qed.

Lemma append_nil (s : string) : "" ++ s = s.
Proof. reflexivity. Qed.

Lemma append_cons (a : ascii) (s t : string) :
  String a s ++ t = String a (s ++ t).
Proof. reflexivity. Qed.

Lemma find_sep_first (c : ascii) (k rest : string) :
  occurs c k = false ->
  find_sep (String c "") (k ++ String c rest) = Some (k, rest).
Proof.
  induction k as [|x k IH]; intros H.
  - rewrite append_nil. cbn [find_sep].
    rewrite prefix_char, Ascii.eqb_refl. reflexivity.
  - cbn [occurs] in H. apply orb_false_elim in H. destruct H as [Hx Hk].
    rewrite append_cons. cbn [find_sep]. rewrite prefix_char, Hx, (IH Hk).
    reflexivity.
Qed.

Lemma split_on_aux_clean (sep : ascii) (a : string) :
  occurs sep a = false -> split_on_aux sep a = (a, []).
Proof.
  induction a as [|x a IH]; intros H; [reflexivity|].
  cbn [occurs] in H. apply orb_false_elim in H. destruct H as [Hx Ha].
  cbn [split_on_aux]. rewrite (IH Ha), Hx. reflexivity.
Qed.

Lemma split_on_aux_app (sep : ascii) (a b : string) :
  occurs sep a = false ->
  split_on_aux sep (a ++ String sep b) = (a, split_on sep b).
Proof.
  induction a as [|x a IH]; intros H.
  - rewrite append_nil. cbn [split_on_aux]. unfold split_on.
    destruct (split_on_aux sep b) as [t ts]. rewrite Ascii.eqb_refl.
    reflexivity.
  - cbn [occurs] in H. apply orb_false_elim in H. destruct H as [Hx Ha].
    rewrite append_cons. cbn [split_on_aux]. rewrite (IH Ha), Hx.
    reflexivity.
Qed.

Lemma occurs_app (c : ascii) (a b : string) :
  occurs c (a ++ b) = (occurs c a || occurs c b)%bool.
Proof.
  induction a as [|x a IH]; [reflexivity|].
  rewrite append_cons. cbn [occurs]. rewrite IH. apply orb_assoc.
Qed.

Lemma append_assoc (a b c : string) : (a ++ b) ++ c = a ++ (b ++ c).
Proof.
  induction a as [|x a IH]; [reflexivity|].
  rewrite !append_cons, IH. reflexivity.
Qed.

Lemma partition_pair (k v : string) :
  occurs "=" k = false -> partition "=" (k ++ "=" ++ v) = (k, "=", v).
Proof.
  intros H. unfold partition.
  change ("=" ++ v) with (String "=" v).
  rewrite (find_sep_first "=" k v H). reflexivity.
Qed.

Lemma is_empty_app (a b : string) :
  is_empty a = false -> is_empty (a ++ b) = false.
Proof. destruct a; [discriminate|reflexivity]. Qed.

Lemma plain_pair_no_amp (kv : string * string) :
  plain_pair kv -> occurs "&" (fst kv ++ "=" ++ snd kv) = false.
Proof.
  intros (_ & _ & Hk & Hv).
  rewrite occurs_app, Hk. change ("=" ++ snd kv) with (String "=" (snd kv)).
  cbn [occurs orb]. exact Hv.
Qed.

Lemma split_on_urlencode (pairs : list (string * string)) :
  Forall plain_pair pairs -> pairs <> [] ->
  split_on "&" (urlencode pairs)
  = map (fun kv => fst kv ++ "=" ++ snd kv) pairs.
Proof.
  induction pairs as [|[k v] rest IH]; intros HF Hne; [congruence|].
  inversion HF as [|? ? Hkv HF']; subst.
  destruct rest as [|kv' rest'].
  - cbn [urlencode map fst snd]. unfold split_on.
    rewrite split_on_aux_clean by apply (plain_pair_no_amp (k, v) Hkv).
    reflexivity.
  - change (urlencode ((k, v) :: kv' :: rest'))
      with (k ++ "=" ++ v ++ String "&" (urlencode (kv' :: rest'))).
    rewrite <- (append_assoc "=" v), <- (append_assoc k).
    unfold split_on at 1.
    rewrite split_on_aux_app by apply (plain_pair_no_amp (k, v) Hkv).
    rewrite IH by (auto; discriminate). reflexivity.
Qed.

Lemma extract_args_pairs (pairs : list (string * string))
    (kwargs : gmap string string) :
  Forall plain_pair pairs ->
  extract_args (urlencode pairs) kwargs
  = fold_left (fun kwargs kv => <[fst kv := snd kv]> kwargs) pairs kwargs.
Proof.
  intros HF. unfold extract_args.
  destruct pairs as [|kv rest]; [reflexivity|].
  rewrite split_on_urlencode by (auto; discriminate).
  revert kwargs. generalize (kv :: rest) HF. clear.
  induction l as [|[k v] l IH]; intros HF kwargs; [reflexivity|].
  inversion HF as [|? ? Hkv HF']; subst.
  cbn [map fold_left fst snd].
  destruct Hkv as (Hne & Heq & _ & _). cbn [fst snd] in Hne, Heq.
  rewrite (is_empty_app k ("=" ++ v) Hne), (partition_pair k v Heq).
  apply IH. exact HF'.
Qed.

(** X6: [extract_args] reads back what [k1=v1&k2=v2&...] encodes: on the
    text of any pairs whose keys are not empty and free of [=] and [&] and
    whose values are free of [&], it stores each pair in the order given,
    so that a later pair overwrites an earlier one with the same key. *)
Theorem extract_args_urlencode :
  forall (pairs : list (string * string)) (kwargs : gmap string string),
    Forall plain_pair pairs ->
    extract_args (urlencode pairs) kwargs
    = fold_left (fun kwargs kv => <[fst kv := snd kv]> kwargs) pairs kwargs.
Proof.
  intros pairs kwargs HF. apply extract_args_pairs. exact HF.
Qed.

(** X6 at three pairs, two of them with the same key. *)
Lemma extract_args_urlencode_witness :
  extract_args (urlencode [("pump", "a"); ("volume", "5"); ("pump", "B=b")]) ∅
  = fold_left (fun kwargs kv => <[fst kv := snd kv]> kwargs)
      [("pump", "a"); ("volume", "5"); ("pump", "B=b")]
      (∅ : gmap string string).
Proof.
  apply (extract_args_urlencode
           [("pump", "a"); ("volume", "5"); ("pump", "B=b")] ∅).
  repeat constructor.
Defined.



Lemma any_char_app (p : ascii -> bool) (a b : string) :
  any_char p (a ++ b) = (any_char p a || any_char p b)%bool.
Proof.
  induction a as [|x a IH]; [reflexivity|].
  rewrite append_cons. cbn [any_char]. rewrite IH. apply orb_assoc.
Qed.




(** X8: for a request of ASCII bytes, the request line alone decides
    whether [extract_request] accepts it: it does exactly when the first
    line of the header block splits into three tokens, the method is then
    the first token and the path the second one up to its first [?];
    no header line and no body makes the parser give up. *)
Theorem extract_request_accepts_iff :
  forall request : string,
    all_ascii request = true ->
    let header := fst (fst (partition (CRLF ++ CRLF) request)) in
    match splitlines header with
    | line0 :: _ =>
        match split_ws line0 with
        | [method; target; _] =>
            exists headers kwargs,
              extract_request request
              = Some (fst (fst (partition "?" target)), method, headers, kwargs)
        | _ => extract_request request = None
        end
    | [] => extract_request request = None
    end.
Proof.
  intros request Hascii header. subst header.
  unfold extract_request, extract_request_try, decode.
  rewrite Hascii. cbn [rbind].
  destruct (partition (CRLF ++ CRLF) request) as [[header sep] body].
  cbn [fst].
  destruct (splitlines header) as [|line0 lines]; cbn [rbind]; [reflexivity|].
  destruct (split_ws line0) as [|m [|p [|v [|]]]]; cbn [rbind];
    try reflexivity.
  destruct (partition "?" p) as [[path' sep'] args]. cbn [fst].
  eexists. eexists. reflexivity.
Qed.

(** X8 on a request line of two tokens. *)
Lemma extract_request_accepts_iff_witness :
  extract_request ("GET /moisture" ++ CRLF ++ "Host: plant" ++ CRLF ++ CRLF)
  = None.
Proof.
  apply (extract_request_accepts_iff
           ("GET /moisture" ++ CRLF ++ "Host: plant" ++ CRLF ++ CRLF)).
  vm_compute. reflexivity.
Defined.

(** ** Connections *)

(** X9: a request that [extract_request] rejects is dropped in silence:
    no endpoint runs, nothing is sent, and the connection is closed. *)
Theorem handle_connection_unparsable :
  forall (E : Env) (eps : gmap string Endpoint) (client : Client)
         (buffer_size : nat) (w w1 : World) (request : string),
    recv_data E client buffer_size w = (Ok request, w1) ->
    extract_request request = None ->
    handle_connection E eps client buffer_size w
    = (Ok tt, emit (EClose (cid client)) w1).
Proof.
  intros E eps client buffer_size w w1 request Hr Hx.
  unfold handle_connection. unfold bind at 1. rewrite Hr, Hx.
  reflexivity.
Qed.

(** X9 on the bench: a request line of two tokens. *)
Lemma handle_connection_unparsable_witness :
  let client := ready_client 7 "GET /moisture" in
  handle_connection bench (endpoints bench) client WORKER_BUFFER_SIZE
    initial_world
  = (Ok tt, emit (EClose 7) initial_world).
Proof.
  intros client.
  apply (handle_connection_unparsable bench (endpoints bench) client
           WORKER_BUFFER_SIZE initial_world initial_world "GET /moisture");
    vm_compute; reflexivity.
Defined.

(** X10: a request for a path that has no endpoint, or whose endpoint is
    registered for another method, is served as a static page of its path:
    the endpoint function is not called and the state is the one the read
    left. *)
Theorem handle_connection_falls_to_static :
  forall (E : Env) (eps : gmap string Endpoint) (client : Client)
         (buffer_size : nat) (w w1 : World)
         (request path method : string) (headers kwargs : gmap string string),
    recv_data E client buffer_size w = (Ok request, w1) ->
    extract_request request = Some (path, method, headers, kwargs) ->
    (forall ep, eps !! path = Some ep -> ep_method ep <> method) ->
    handle_connection E eps client buffer_size w
    = (resolved <- lift (path2html E recursion_limit path) ;;
       send client
         (http_version ++ " " ++ snd resolved ++ CRLF ++ CRLF ++ fst resolved) ;;
       close client) w1.
Proof.
  intros E eps client buffer_size w w1 request path method headers kwargs
    Hr Hx Hep.
  unfold handle_connection. unfold bind at 1. rewrite Hr, Hx.
  unfold bind at 1. unfold handle_api.
  assert (Ha : match eps !! path with
               | Some endpoint =>
                   if String.eqb (ep_method endpoint) method
                   then ep_func endpoint kwargs else ret RNone
               | None => ret RNone
               end w1 = (Ok RNone, w1)).
  { destruct (eps !! path) as [ep|] eqn:L; [|reflexivity].
    destruct (String.eqb_spec (ep_method ep) method) as [Heq|_];
      [|reflexivity].
    exfalso. exact (Hep ep eq_refl Heq). }
  rewrite Ha. cbn [resolve].
  unfold bind, lift.
  destruct (path2html E recursion_limit path) as [[html rc]|e]; reflexivity.
Qed.

(** X10 on the bench: [GET /water], an endpoint registered for [POST]. *)
Lemma handle_connection_falls_to_static_witness :
  let client := ready_client 7 ("GET /water HTTP/1.1" ++ CRLF ++ CRLF) in
  handle_connection bench (endpoints bench) client WORKER_BUFFER_SIZE
    initial_world
  = (resolved <- lift (path2html bench recursion_limit "/water") ;;
     send client
       (http_version ++ " " ++ snd resolved ++ CRLF ++ CRLF ++ fst resolved) ;;
     close client) initial_world.
Proof.
  intros client.
  apply (handle_connection_falls_to_static bench (endpoints bench) client
           WORKER_BUFFER_SIZE initial_world initial_world
           ("GET /water HTTP/1.1" ++ CRLF ++ CRLF) "/water" "GET" ∅ ∅).
  - vm_compute. reflexivity.
  - vm_compute. reflexivity.
  - intros ep. rewrite endpoints_water. intros [= <-]. discriminate.
Defined.

Lemma extends_without_emit (bad : event -> bool) (w : World) (ev : event) :
  bad ev = false -> extends_without bad w (emit ev w).
Proof. intros H. exists [ev]. cbn [forallb]. rewrite H. auto. Qed.

(** Dispensing reaches no socket. *)
Lemma dispense_water_no_socket (E : Env) (pump : string) (ml : pynum)
    (w w' : World) (r : Res unit) :
  dispense_water E pump ml w = (r, w') ->
  extends_without socket_event w w'.
Proof.
  intros H.
  unfold_dispense H.
  destruct (label2pin !! pump) as [p0|] eqn:L.
  all: split_faults E H.
  all: try (destruct (tof_distance E _) eqn:D;
            cbn [truediv is_zero_num Z.of_nat Pos.of_succ_nat Z.eqb add] in H).
  all: inversion H; subst; clear H.
  all: unfold extends_without; trace_shape; eexists; split; reflexivity.
Qed.

(** Waiting for the bytes of a request reaches no socket. *)
Lemma recv_loop_no_socket (E : Env) (client : Client) (buffer_size : nat)
    (blocked : nat) :
  forall (w w' : World) (r : Res string),
    recv_loop E blocked client buffer_size w = (r, w') ->
    extends_without socket_event w w'.
Proof.
  induction blocked as [|blocked IH]; intros w w' r H.
  - inversion H; subst. apply extends_without_refl.
  - cbn [recv_loop] in H. unfold sleep, bind, fallible, ret in H.
    destruct (fault E (calls w)).
    + inversion H; subst. exists []. rewrite app_nil_r. auto.
    + apply IH in H.
      eapply extends_without_trans; [|exact H].
      exists [ESleep (PyInt 0)]. auto.
Qed.

(** The two endpoints of the application reach no socket. *)
Lemma handle_api_no_socket (E : Env) (extracted : Extracted)
    (w w' : World) (r : Res response) :
  handle_api (endpoints E) extracted w = (r, w') ->
  extends_without socket_event w w'.
Proof.
  unfold handle_api.
  destruct extracted as [[[[path method] headers] kwargs]|];
    [|intros H; inversion H; subst; apply extends_without_refl].
  unfold endpoints, endpoint.
  destruct (_ !! path) as [ep|] eqn:L;
    [|intros H; inversion H; subst; apply extends_without_refl].
  apply lookup_insert_Some in L. destruct L as [[_ <-]|[_ L]].
  - cbn [ep_method ep_func].
    destruct (String.eqb "GET" method);
      [|intros H; inversion H; subst; apply extends_without_refl].
    unfold bind, lift, moisture, load_moisture, ret.
    destruct (bind_kwargs [] kwargs); intros H; inversion H; subst;
      apply extends_without_refl.
  - apply lookup_insert_Some in L. destruct L as [[_ <-]|[_ L]];
      [|rewrite lookup_empty in L; discriminate].
    cbn [ep_method ep_func].
    destruct (String.eqb "POST" method);
      [|intros H; inversion H; subst; apply extends_without_refl].
    unfold bind at 1. unfold lift at 1.
    destruct (bind_kwargs _ kwargs);
      [|intros H; inversion H; subst; apply extends_without_refl].
    unfold water.
    destruct (kwargs !! "pump") as [pump|];
      [|intros H; inversion H; subst; apply extends_without_refl].
    destruct (kwargs !! "volume") as [volume|];
      [|intros H; inversion H; subst; apply extends_without_refl].
    unfold bind at 1. unfold lift at 1.
    destruct (last_char pump);
      [|intros H; inversion H; subst; apply extends_without_refl].
    unfold bind at 1. unfold lift at 1.
    destruct (float_of_str volume);
      [|intros H; inversion H; subst; apply extends_without_refl].
    unfold bind at 1.
    destruct (dispense_water E _ _ w) as [[[]|e] w2] eqn:D;
      apply dispense_water_no_socket in D;
      intros H; inversion H; subst; exact D.
Qed.

(** X11: with the endpoints of the application, a connection is closed
    exactly when its handling returns: then a response was sent once and
    the socket closed, or (failed send) the socket closed twice, or
    (rejected request) the socket just closed; when the handling raises,
    the socket has been neither written to nor closed. *)
Theorem handle_connection_disposition :
  forall (E : Env) (client : Client) (buffer_size : nat) (w w' : World)
         (r : Res unit),
    handle_connection E (endpoints E) client buffer_size w = (r, w') ->
    exists w2 : World,
      extends_without socket_event w w2
      /\ match r with
         | Raise _ => w' = w2
         | Ok _ =>
             (exists data,
                 send_fails client = false
                 /\ w' = emit (EClose (cid client))
                           (emit (ESend (cid client) data) w2))
             \/ (send_fails client = true
                 /\ w' = emit (EClose (cid client))
                           (emit (EClose (cid client)) w2))
             \/ w' = emit (EClose (cid client)) w2
         end.
Proof.
  intros E client buffer_size w w' r H.
  unfold handle_connection in H. unfold bind at 1 in H.
  destruct (recv_data E client buffer_size w) as [[request|e] w1] eqn:R;
    apply recv_loop_no_socket in R.
  2: { inversion H; subst. exists w'. auto. }
  cbv zeta in H. unfold bind at 1 in H.
  destruct (handle_api (endpoints E) _ w1) as [[resp|e] w2] eqn:A;
    apply handle_api_no_socket in A.
  2: { inversion H; subst. exists w'. split; [|reflexivity].
       eapply extends_without_trans; eassumption. }
  exists w2. split; [eapply extends_without_trans; eassumption|].
  destruct (extract_request request) as [[[[path method] headers] kwargs]|].
  - unfold bind at 1 in H. unfold lift in H.
    destruct (resolve E path resp) as [[html rc]|e].
    + unfold bind, send, close in H.
      destruct (send_fails client) eqn:S; inversion H; subst; eauto.
    + inversion H; subst. reflexivity.
  - unfold close in H. inversion H; subst. auto.
Qed.

(** X11 on the bench: the request that ends in [ValueError]. *)
Lemma handle_connection_disposition_witness :
  let client := ready_client 1 water_bad_volume_request in
  exists w2 : World,
    extends_without socket_event initial_world w2
    /\ initial_world = w2.
Proof.
  intros client.
  apply (handle_connection_disposition bench client WORKER_BUFFER_SIZE
           initial_world initial_world (Raise ValueError)).
  vm_compute. reflexivity.
Defined.

(** ** The watering loop, continued *)

Lemma quiet_refl (w : World) : quiet w w.
Proof. split; [apply extends_without_refl | reflexivity]. Qed.


Lemma replay_no_pin (on : option pin) (evs : list event) :
  forallb (fun ev => negb (pin_event ev)) evs = true ->
  replay on evs = Some on.
Proof.
  induction evs as [|ev evs IH]; [reflexivity|].
  cbn [forallb]. intros H. apply andb_prop in H. destruct H as [Hev H].
  destruct ev; cbn [pin_event negb] in Hev; try discriminate;
    cbn [replay]; auto.
Qed.

Lemma quiet_pump_safe (w w' : World) :
  all_off w -> quiet w w' -> pump_safe w w'.
Proof.
  intros Hoff [(evs & T & F) P]. exists evs.
  split; [exact T|]. split; [apply replay_no_pin; exact F|].
  intros q. rewrite P. apply Hoff.
Qed.








(** X13: whatever its arguments and whatever fails, the function of
    [/water], entered with every pump off, has at most one pump on at any
    time and leaves every pump off; when it returns, it returns nothing
    after a dispense, or [(404, "Not found")] with the state untouched
    because an argument was missing. *)
Theorem water_pump_safe :
  forall (E : Env) (pump volume : option string) (w w' : World)
         (r : Res response),
    all_off w ->
    water E pump volume w = (r, w') ->
    pump_safe w w'
    /\ (forall resp, r = Ok resp ->
          resp = RNone
          \/ (resp = RPair 404 "Not found" /\ w' = w
              /\ (pump = None \/ volume = None))).
Proof.
  intros E pump volume w w' r Hoff H.
  pose proof (quiet_pump_safe w w Hoff (quiet_refl w)) as Hsame.
  unfold water in H.
  destruct pump as [pump|].
  2: { inversion H; subst. split; [exact Hsame|].
       intros resp [= <-]. auto. }
  destruct volume as [volume|].
  2: { inversion H; subst. split; [exact Hsame|].
       intros resp [= <-]. auto. }
  unfold bind at 1 in H. unfold lift at 1 in H.
  destruct (last_char pump) as [c|e].
  2: { inversion H; subst. split; [exact Hsame|]. intros resp; discriminate. }
  unfold bind at 1 in H. unfold lift at 1 in H.
  destruct (float_of_str volume) as [ml|e].
  2: { inversion H; subst. split; [exact Hsame|]. intros resp; discriminate. }
  unfold bind at 1 in H.
  destruct (dispense_water E (lower c) (PyFloat ml) w) as [[[]|e] w1] eqn:D;
    apply (fun D => dispense_water_exclusive E _ _ _ _ _ D Hoff) in D;
    inversion H; subst.
  - split; [exact D|]. intros resp [= <-]. auto.
  - split; [exact D|]. intros resp; discriminate.
Qed.

(** X13 on the bench: pump [PumpB], 10 ml. *)
Lemma water_pump_safe_witness :
  let run := water bench (Some "PumpB") (Some "10") initial_world in
  pump_safe initial_world (snd run)
  /\ (forall resp, fst run = Ok resp ->
        resp = RNone
        \/ (resp = RPair 404 "Not found" /\ snd run = initial_world
            /\ (Some "PumpB" = None \/ Some "10" = None))).
Proof.
  intros run.
  apply (water_pump_safe bench (Some "PumpB") (Some "10") initial_world
           (snd run) (fst run)).
  - intros q. reflexivity.
  - vm_compute. reflexivity.
Defined.

(** ** Moisture, continued *)

Lemma sampled_in_order_later (E : Env) (w w' : World) (s : Sample) :
  (clock_reads w <= clock_reads w')%nat ->
  sampled_in_order E w s -> sampled_in_order E w' s.
Proof.
  intros Hc [Ht Hs]. split; [exact Ht|].
  destruct (first s), (last s); try exact Hs.
  destruct Hs as (Hp & nf & nl & Hn & Hf & Hl).
  split; [exact Hp|]. exists nf, nl. split; [lia|auto].
Qed.

Lemma poll_in_order (E : Env) (fuel i : nat) :
  forall (start : Z) (s s' : Sample) (w w' : World),
    sampled_in_order E w s ->
    poll E fuel i start s w = (Ok (Some s'), w') ->
    sampled_in_order E w' s'.
Proof.
  induction fuel as [|fuel IH]; intros start s s' w w' Hs H.
  - inversion H.
  - rewrite poll_S in H.
    destruct (ticks s <? 10)%Z eqn:Hlt; [|inversion H; subst; exact Hs].
    apply Z.ltb_lt in Hlt.
    unfold bind at 1 in H. unfold time_monotonic_ns at 1 in H.
    destruct (_ - start <=? 1000000000)%Z.
    2: { inversion H; subst.
         apply (sampled_in_order_later E w); [world_simpl; lia | exact Hs]. }
    unfold bind at 1 in H. unfold read_sensor at 1 in H.
    unfold bind at 1 in H.
    destruct Hs as [Ht Hs].
    destruct (negb _); [destruct (first s) as [f|] eqn:Hf|].
    all: run_in H.
    all: destruct (fault E _); [inversion H|].
    all: apply IH in H; [exact H|].
    + destruct (last s) as [l|]; [|contradiction].
      destruct Hs as (Hp & nf & nl & Hn & Hf' & Hl).
      split; cbn [first last ticks]; [lia|].
      split; [lia|]. exists nf, (S (clock_reads w)).
      world_simpl. split; [lia|auto].
    + destruct (last s) as [l|]; [contradiction|].
      split; cbn [first last ticks]; [lia|].
      split; [lia|]. exists (S (clock_reads w)), (S (S (clock_reads w))).
      world_simpl. split; [lia|auto].
    + apply (sampled_in_order_later E w); [world_simpl; lia|].
      split; assumption.
Qed.

(** X14: the sample of a position never counts more than ten
    transitions; it has both timestamps exactly when it counted at least
    one; and on a clock that never runs backwards the first timestamp is
    not after the last one, so the average period is not negative. *)
Theorem sample_position_in_order :
  forall (E : Env) (fuel i : nat) (w w' : World) (s : Sample),
    monotone E ->
    sample_position E fuel i w = (Ok (Some s), w') ->
    (0 <= ticks s <= 10)%Z
    /\ (ticks s = 0%Z <-> first s = None)
    /\ (ticks s = 0%Z <-> last s = None)
    /\ (forall f l, first s = Some f -> last s = Some l -> (f <= l)%Z).
Proof.
  intros E fuel i w w' s Hmono H.
  unfold sample_position in H.
  unfold bind at 1 in H. unfold read_sensor at 1 in H.
  unfold bind at 1 in H. unfold time_monotonic_ns at 1 in H.
  apply poll_in_order in H.
  2: { split; cbn [first last ticks]; [lia | reflexivity]. }
  destruct H as [Ht Hs]. split; [exact Ht|].
  destruct (first s) as [f|], (last s) as [l|]; try contradiction.
  - destruct Hs as (Hp & nf & nl & Hn & -> & ->).
    split; [split; [lia|discriminate]|].
    split; [split; [lia|discriminate]|].
    intros f l [= <-] [= <-]. apply Hmono. lia.
  - split; [tauto|]. split; [tauto|]. intros f l; discriminate.
Qed.

(** X14 on the bench: sensor 0 from the initial state. *)
Lemma sample_position_in_order_witness :
  let s := {| first := Some 30001000%Z; last := Some 305001000%Z;
              ticks := 10; last_value := true |} in
  (0 <= ticks s <= 10)%Z
  /\ (ticks s = 0%Z <-> first s = None)
  /\ (ticks s = 0%Z <-> last s = None)
  /\ (forall f l, first s = Some f -> last s = Some l -> (f <= l)%Z).
Proof.
  intros s.
  apply (sample_position_in_order bench 300 0 initial_world
           (snd (sample_position bench 300 0 initial_world)) s).
  - intros m n Hmn. cbn [monotonic_ns bench]. lia.
  - vm_compute. reflexivity.
Defined.

Lemma moisture_score_float (s : Sample) (v : pynum) :
  moisture_score s = Ok v -> exists f, v = PyFloat f.
Proof.
  unfold moisture_score.
  destruct (_ || _)%bool; [intros [= <-]; eauto|].
  destruct (truediv _ (PyInt (ticks s))) as [average|]; cbn [rbind];
    [|discriminate].
  unfold truediv at 1.
  change (Py.sub (PyInt 80000000) (PyInt 20000000)) with (PyInt 60000000).
  cbn [is_zero_num Z.eqb].
  destruct (Py.sub _ (PyInt 20000000)); cbn [rbind Py.mul round_2];
    intros [= <-]; eauto.
Qed.

Lemma read_position_float (E : Env) (fuel i : nat) (w w' : World) (v : pynum) :
  read_position E fuel i w = (Ok (Some v), w') -> exists f, v = PyFloat f.
Proof.
  unfold read_position. unfold bind at 1.
  destruct (sample_position E fuel i w) as [[[s|]|e] w1]; try discriminate.
  unfold bind, lift, ret.
  destruct (moisture_score s) as [v'|] eqn:M; [|discriminate].
  intros [= <- <-]. exact (moisture_score_float s v' M).
Qed.

(** X15: a sweep that completes yields exactly three scores, one per
    position, and every one is a [float] (never an [int]), the sentinel
    of a flat sensor included. *)
Theorem moisture_readings_three_floats :
  forall (E : Env) (fuel : nat) (w w' : World) (readings : list pynum),
    moisture_readings E fuel w = (Ok (Some readings), w') ->
    exists a b c : float, readings = [PyFloat a; PyFloat b; PyFloat c].
Proof.
  intros E fuel w w' readings H.
  unfold moisture_readings in H. cbn [readings_loop app] in H.
  unfold bind at 1 in H.
  destruct (read_position E fuel 0 w) as [[[v0|]|e] w1] eqn:R0;
    try discriminate.
  unfold bind at 1 in H.
  destruct (read_position E fuel 1 w1) as [[[v1|]|e] w2] eqn:R1;
    try discriminate.
  unfold bind at 1 in H.
  destruct (read_position E fuel 2 w2) as [[[v2|]|e] w3] eqn:R2;
    try discriminate.
  apply read_position_float in R0, R1, R2.
  destruct R0 as [a ->], R1 as [b ->], R2 as [c ->].
  inversion H; subst. eauto.
Qed.

(** X15 on the bench. *)
Lemma moisture_readings_three_floats_witness :
  exists a b c : float,
    [PyFloat 12.5; PyFloat 0; PyFloat 100] = [PyFloat a; PyFloat b; PyFloat c].
Proof.
  apply (moisture_readings_three_floats bench 300 initial_world
           (snd (moisture_readings bench 300 initial_world))).
  vm_compute. reflexivity.
Defined.

(** ** Dispensing, continued *)

(** X16: [dispense_water] writes to no pump but its own: every other pump
    keeps the level it had, and every pin event of the call is on the pump
    of the label. *)
Theorem dispense_water_own_pump_only :
  forall (E : Env) (pump : string) (ml : pynum) (p : pin) (w w' : World)
         (r : Res unit),
    label2pin !! pump = Some p ->
    dispense_water E pump ml w = (r, w') ->
    (forall q : pin, q <> p -> pin_value w' q = pin_value w q)
    /\ exists evs : list event,
         trace w' = (trace w ++ evs)%list
         /\ forall q v, In (EPin q v) evs -> q = p.
Proof.
  intros E pump ml p w w' r L H.
  unfold_dispense H. rewrite L in H.
  split_faults E H.
  all: try (destruct (tof_distance E _) eqn:D;
            cbn [truediv is_zero_num Z.of_nat Pos.of_succ_nat Z.eqb add] in H).
  all: inversion H; subst; clear H.
  all: split;
         [ intros q Hq; world_simpl;
           destruct (pin_eqb q p) eqn:Hqp;
           [destruct q, p; try discriminate Hqp; congruence | reflexivity]
         | trace_shape; eexists; split; [reflexivity|];
           intros q v HIn; cbn [In] in HIn;
           repeat (destruct HIn as [HIn|HIn]; try discriminate HIn);
           try contradiction; congruence ].
Qed.

(** X16 on the bench: pump [b]. *)
Lemma dispense_water_own_pump_only_witness :
  let w' := snd (dispense_water bench "b" (PyFloat 5) initial_world) in
  (forall q : pin, q <> pump_b_pin -> pin_value w' q = pin_value initial_world q)
  /\ exists evs : list event,
       trace w' = (trace initial_world ++ evs)%list
       /\ forall q v, In (EPin q v) evs -> q = pump_b_pin.
Proof.
  intros w'.
  apply (dispense_water_own_pump_only bench "b" (PyFloat 5) pump_b_pin
           initial_world w'
           (fst (dispense_water bench "b" (PyFloat 5) initial_world))).
  - reflexivity.
  - vm_compute. reflexivity.
Defined.

(** ** Endpoints and their arguments *)

Lemma bind_kwargs_none (kwargs : gmap string string) :
  kwargs <> ∅ -> bind_kwargs [] kwargs = Raise TypeError.
Proof.
  intros Hne. unfold bind_kwargs.
  destruct (map_to_list kwargs) as [|[k v] l] eqn:L.
  - apply map_to_list_empty_iff in L. contradiction.
  - reflexivity.
Qed.

(** X17: the function of [/moisture] takes no argument: a [GET /moisture]
    whose body carries any argument does not reach it but raises
    [TypeError] with the state untouched, and that exception leaves
    [handle_connection]. *)
Theorem moisture_rejects_arguments :
  forall (E : Env) (client : Client) (buffer_size : nat) (w w1 : World)
         (request : string) (headers kwargs : gmap string string),
    recv_data E client buffer_size w = (Ok request, w1) ->
    extract_request request = Some ("/moisture", "GET", headers, kwargs) ->
    kwargs <> ∅ ->
    handle_connection E (endpoints E) client buffer_size w
    = (Raise TypeError, w1).
Proof.
  intros E client buffer_size w w1 request headers kwargs Hr Hx Hne.
  unfold handle_connection. unfold bind at 1. rewrite Hr, Hx.
  unfold bind at 1. unfold handle_api. rewrite endpoints_moisture.
  cbn [ep_method ep_func String.eqb Ascii.eqb Bool.eqb].
  unfold bind at 1. unfold lift. rewrite (bind_kwargs_none kwargs Hne).
  reflexivity.
Qed.

(** X17 on the bench: [GET /moisture] with the body [x=1]. *)
Lemma moisture_rejects_arguments_witness :
  let request := "GET /moisture HTTP/1.1" ++ CRLF ++ CRLF ++ "x=1" in
  handle_connection bench (endpoints bench) (ready_client 1 request)
    WORKER_BUFFER_SIZE initial_world
  = (Raise TypeError, initial_world).
Proof.
  intros request.
  apply (moisture_rejects_arguments bench (ready_client 1 request)
           WORKER_BUFFER_SIZE initial_world initial_world request
           ∅ (<["x" := "1"]> ∅)).
  - vm_compute. reflexivity.
  - vm_compute. reflexivity.
  - intros H. apply (f_equal (fun m => m !! "x")) in H.
    rewrite lookup_insert_eq, lookup_empty in H. discriminate.
Defined.

(** ** A request put together and parsed *)

Lemma all_ascii_app (a b : string) :
  all_ascii (a ++ b) = (all_ascii a && all_ascii b)%bool.
Proof.
  induction a as [|x a IH]; [reflexivity|].
  rewrite append_cons. cbn [all_ascii]. rewrite IH. apply andb_assoc.
Qed.

Lemma any_char_weaken (p q : ascii -> bool) (s : string) :
  (forall c, p c = true -> q c = true) ->
  any_char q s = false -> any_char p s = false.
Proof.
  intros Hpq. induction s as [|x s IH]; [reflexivity|].
  cbn [any_char]. intros H. apply orb_false_elim in H. destruct H as [Hx Hs].
  rewrite (IH Hs). destruct (p x) eqn:Hp; [|reflexivity].
  rewrite (Hpq x Hp) in Hx. discriminate.
Qed.

Lemma islinebreak_isspace (c : ascii) : islinebreak c = true -> isspace c = true.
Proof.
  unfold islinebreak, isspace. cbv zeta.
  destruct (code c) as [|n]; [discriminate|].
  intros H. apply orb_prop in H.
  destruct H as [H|H]; apply andb_prop in H; destruct H as [H1 H2];
    apply N.leb_le in H1, H2; apply orb_true_intro; [left|right];
    apply andb_true_intro; split; apply N.leb_le; lia.
Qed.

Lemma token_no_linebreak (s : string) :
  any_char isspace s = false -> any_char islinebreak s = false.
Proof. apply any_char_weaken. exact islinebreak_isspace. Qed.

(** A text without a line boundary is one line, or none if it is empty. *)
Lemma splitlines_one_line (s : string) :
  any_char islinebreak s = false ->
  splitlines s = if is_empty s then [] else [s].
Proof.
  induction s as [|c r IH]; [reflexivity|].
  cbn [any_char]. intros H. apply orb_false_elim in H. destruct H as [Hc Hr].
  cbn [splitlines is_empty]. rewrite Hc, (IH Hr).
  destruct r; reflexivity.
Qed.

Lemma split_ws_aux_token (a : string) :
  any_char isspace a = false -> split_ws_aux a = (a, []).
Proof.
  induction a as [|x a IH]; [reflexivity|].
  cbn [any_char]. intros H. apply orb_false_elim in H. destruct H as [Hx Ha].
  cbn [split_ws_aux]. rewrite (IH Ha), Hx. reflexivity.
Qed.

Lemma split_ws_aux_space (a b : string) :
  any_char isspace a = false ->
  split_ws_aux (a ++ String " " b) = (a, split_ws b).
Proof.
  induction a as [|x a IH].
  - intros _. rewrite append_nil. cbn [split_ws_aux]. unfold split_ws.
    destruct (split_ws_aux b) as [t ts].
    change (isspace " ") with true. reflexivity.
  - cbn [any_char]. intros H. apply orb_false_elim in H.
    destruct H as [Hx Ha].
    rewrite append_cons. cbn [split_ws_aux]. rewrite (IH Ha), Hx.
    reflexivity.
Qed.

(** Three tokens separated by single spaces split into those tokens. *)
Lemma split_ws_three (m t v : string) :
  token m -> token t -> token v ->
  split_ws (m ++ " " ++ t ++ " " ++ v) = [m; t; v].
Proof.
  intros [Hm Hms] [Ht Hts] [Hv Hvs].
  change (" " ++ t ++ " " ++ v) with (String " " (t ++ String " " v)).
  unfold split_ws at 1. rewrite (split_ws_aux_space m _ Hms), Hm.
  unfold split_ws at 1. rewrite (split_ws_aux_space t _ Hts), Ht.
  unfold split_ws. rewrite (split_ws_aux_token v Hvs), Hv.
  reflexivity.
Qed.

Lemma prefix_blank_line (x : ascii) (r : string) :
  Ascii.eqb x CR = false -> String.prefix (CRLF ++ CRLF) (String x r) = false.
Proof.
  intros H. change (CRLF ++ CRLF) with (String CR (String LF CRLF)).
  cbn [String.prefix]. destruct (ascii_dec CR x) as [<-|_]; [|reflexivity].
  rewrite Ascii.eqb_refl in H. discriminate.
Qed.

Lemma occurs_any_char (p : ascii -> bool) (c : ascii) (s : string) :
  p c = true -> any_char p s = false -> occurs c s = false.
Proof.
  intros Hp. induction s as [|x s IH]; [reflexivity|].
  cbn [any_char occurs]. intros H. apply orb_false_elim in H.
  destruct H as [Hx Hs]. rewrite (IH Hs).
  destruct (Ascii.eqb_spec x c) as [->|_]; [congruence|reflexivity].
Qed.

Lemma partition_no_query (target : string) :
  occurs "?" target = false -> partition "?" target = (target, "", "").
Proof.
  intros H. unfold partition.
  pose proof (find_sep_char "?" target) as Hf.
  destruct (find_sep "?" target) as [[b a]|]; [|reflexivity].
  destruct Hf as [_ ->]. rewrite occurs_app in H.
  cbn [occurs] in H. rewrite Ascii.eqb_refl in H.
  rewrite orb_true_r in H. discriminate.
Qed.

Lemma urlencode_wire (pairs : list (string * string)) :
  Forall wire_pair pairs ->
  all_ascii (urlencode pairs) = true
  /\ any_char islinebreak (urlencode pairs) = false.
Proof.
  induction pairs as [|[k v] rest IH]; intros HF; [auto|].
  inversion HF as [|? ? Hkv HF']; subst.
  destruct Hkv as (_ & Hak & Hav & Hlk & Hlv). cbn [fst snd] in *.
  destruct (IH HF') as [IHa IHl].
  assert (Hone : all_ascii (k ++ "=" ++ v) = true
                 /\ any_char islinebreak (k ++ "=" ++ v) = false).
  { rewrite all_ascii_app, any_char_app, Hak, Hlk.
    change ("=" ++ v) with (String "=" v). cbn [all_ascii any_char].
    rewrite Hav, Hlv. auto. }
  destruct rest as [|kv' rest']; [exact Hone|].
  change (urlencode ((k, v) :: kv' :: rest'))
    with (k ++ "=" ++ v ++ String "&" (urlencode (kv' :: rest'))).
  rewrite <- (append_assoc "=" v), <- (append_assoc k).
  destruct Hone as [Ha Hl].
  rewrite all_ascii_app, any_char_app, Ha, Hl.
  cbn [all_ascii any_char]. rewrite IHa, IHl. auto.
Qed.

Lemma urlencode_empty (pairs : list (string * string)) :
  Forall plain_pair pairs ->
  is_empty (urlencode pairs) = true -> pairs = [].
Proof.
  destruct pairs as [|[k v] rest]; [reflexivity|].
  intros HF. inversion HF as [|? ? (Hne & _) _]; subst. cbn [fst] in Hne.
  destruct rest as [|kv' rest']; cbn [urlencode];
    rewrite (is_empty_app k _ Hne); discriminate.
Qed.

Lemma append_empty_r (a : string) : a ++ "" = a.
Proof.
  induction a as [|x a IH]; [reflexivity|].
  rewrite append_cons, IH. reflexivity.
Qed.

Lemma request_line_shape (m t v : string) :
  ascii_token m -> ascii_token t -> ascii_token v ->
  let line := m ++ " " ++ t ++ " " ++ v in
  is_empty line = false
  /\ any_char islinebreak line = false
  /\ occurs CR line = false
  /\ all_ascii line = true.
Proof.
  intros [[Hm Hms] Ham] [[Ht Hts] Hat] [[Hv Hvs] Hav] line.
  assert (Hl : any_char islinebreak line = false).
  { subst line.
    change (" " ++ t ++ " " ++ v) with (String " " (t ++ String " " v)).
    rewrite any_char_app. cbn [any_char]. rewrite any_char_app.
    cbn [any_char].
    rewrite !token_no_linebreak by assumption. reflexivity. }
  split; [apply is_empty_app; exact Hm|]. split; [exact Hl|].
  split; [apply (occurs_any_char islinebreak); [reflexivity|exact Hl]|].
  subst line.
  change (" " ++ t ++ " " ++ v) with (String " " (t ++ String " " v)).
  rewrite all_ascii_app. cbn [all_ascii]. rewrite all_ascii_app.
  cbn [all_ascii]. rewrite Ham, Hat, Hav. reflexivity.
Qed.

(** A header line is one non-empty line. *)
Lemma header_line_shape (kv : string * string) :
  wire_header kv ->
  is_empty (header_line kv) = false
  /\ any_char islinebreak (header_line kv) = false
  /\ occurs CR (header_line kv) = false
  /\ all_ascii (header_line kv) = true.
Proof.
  destruct kv as [k v]. intros (Hak & Hav & Hlk & Hlv & _ & _).
  cbn [fst snd] in *. unfold header_line. cbn [fst snd].
  change (": " ++ v) with (String ":" (String " " v)).
  assert (Hl : any_char islinebreak (k ++ String ":" (String " " v)) = false).
  { rewrite any_char_app. cbn [any_char]. rewrite Hlk, Hlv. reflexivity. }
  split; [destruct k; reflexivity|]. split; [exact Hl|].
  split; [apply (occurs_any_char islinebreak); [reflexivity|exact Hl]|].
  rewrite all_ascii_app. cbn [all_ascii]. rewrite Hak, Hav. reflexivity.
Qed.

Lemma header_block_ascii (headers : list (string * string)) :
  Forall wire_header headers -> all_ascii (header_block headers) = true.
Proof.
  induction 1 as [|kv rest Hkv _ IH]; [reflexivity|].
  destruct (header_line_shape kv Hkv) as (_ & _ & _ & Ha).
  cbn [header_block].
  change (CRLF ++ header_line kv ++ header_block rest)
    with (String CR (String LF (header_line kv ++ header_block rest))).
  cbn [all_ascii]. rewrite all_ascii_app, Ha, IH. reflexivity.
Qed.

Lemma find_blank_here (body : string) :
  find_sep (CRLF ++ CRLF) (CRLF ++ CRLF ++ body) = Some ("", body).
Proof.
  change (CRLF ++ CRLF ++ body)
    with (String CR (String LF (String CR (String LF body)))).
  change (CRLF ++ CRLF) with (String CR (String LF (String CR (String LF "")))).
  cbn [find_sep String.prefix String.length drop].
  destruct (ascii_dec CR CR); [|congruence].
  destruct (ascii_dec LF LF); [|congruence].
  destruct body; reflexivity.
Qed.

(** The search for the blank line passes over a text without a carriage
    return. *)
Lemma find_blank_skip (a x : string) :
  occurs CR a = false ->
  find_sep (CRLF ++ CRLF) (a ++ x)
  = match find_sep (CRLF ++ CRLF) x with
    | Some (b, r) => Some (a ++ b, r)
    | None => None
    end.
Proof.
  induction a as [|c a IH]; intros H.
  - rewrite append_nil. destruct (find_sep _ x) as [[b r]|]; reflexivity.
  - cbn [occurs] in H. apply orb_false_elim in H. destruct H as [Hc Ha].
    rewrite append_cons. cbn [find_sep].
    rewrite (prefix_blank_line c _ Hc), (IH Ha).
    destruct (find_sep _ x) as [[b r]|]; reflexivity.
Qed.

(** It also passes over the end of a line that a non-empty line
    follows. *)
Lemma find_blank_line_end (l x : string) :
  is_empty l = false -> occurs CR l = false ->
  find_sep (CRLF ++ CRLF) (CRLF ++ l ++ x)
  = match find_sep (CRLF ++ CRLF) x with
    | Some (b, r) => Some (CRLF ++ l ++ b, r)
    | None => None
    end.
Proof.
  intros Hne Hcr.
  pose proof (find_blank_skip l x Hcr) as Hskip.
  destruct l as [|c l]; [discriminate|].
  cbn [occurs] in Hcr. apply orb_false_elim in Hcr. destruct Hcr as [Hc _].
  rewrite append_cons in *.
  change (CRLF ++ String c (l ++ x))
    with (String CR (String LF (String c (l ++ x)))).
  assert (P1 : String.prefix (CRLF ++ CRLF)
                 (String CR (String LF (String c (l ++ x)))) = false).
  { change (CRLF ++ CRLF)
      with (String CR (String LF (String CR (String LF "")))).
    cbn [String.prefix].
    destruct (ascii_dec CR CR); [|reflexivity].
    destruct (ascii_dec LF LF); [|reflexivity].
    destruct (ascii_dec CR c) as [<-|_]; [|reflexivity].
    rewrite Ascii.eqb_refl in Hc. discriminate. }
  assert (P2 : String.prefix (CRLF ++ CRLF) (String LF (String c (l ++ x)))
               = false) by (apply prefix_blank_line; reflexivity).
  transitivity
    (match find_sep (CRLF ++ CRLF) (String c (l ++ x)) with
     | Some (b, r) => Some (String CR (String LF b), r)
     | None => None
     end).
  - generalize dependent (String c (l ++ x)). intros s _ P1 P2.
    change (find_sep (CRLF ++ CRLF) (String CR (String LF s)))
      with (if String.prefix (CRLF ++ CRLF) (String CR (String LF s))
            then Some ("", drop (String.length (CRLF ++ CRLF))
                              (String CR (String LF s)))
            else match
                   (if String.prefix (CRLF ++ CRLF) (String LF s)
                    then Some ("", drop (String.length (CRLF ++ CRLF))
                                      (String LF s))
                    else match find_sep (CRLF ++ CRLF) s with
                         | Some (b, a) => Some (String LF b, a)
                         | None => None
                         end)
                 with
                 | Some (b, a) => Some (String CR b, a)
                 | None => None
                 end).
    rewrite P1, P2. destruct (find_sep _ s) as [[b r]|]; reflexivity.
  - rewrite Hskip. destruct (find_sep _ x) as [[b r]|]; reflexivity.
Qed.

(** The blank line found is the one after the last header line. *)
Lemma find_blank_block (headers : list (string * string)) (body : string) :
  Forall wire_header headers ->
  find_sep (CRLF ++ CRLF) (header_block headers ++ CRLF ++ CRLF ++ body)
  = Some (header_block headers, body).
Proof.
  induction 1 as [|kv rest Hkv _ IH].
  - cbn [header_block]. rewrite append_nil. apply find_blank_here.
  - destruct (header_line_shape kv Hkv) as (Hne & _ & Hcr & _).
    cbn [header_block]. rewrite !append_assoc.
    rewrite (find_blank_line_end _ _ Hne Hcr), IH. reflexivity.
Qed.

Lemma partition_request (line : string) (headers : list (string * string))
    (body : string) :
  occurs CR line = false ->
  Forall wire_header headers ->
  partition (CRLF ++ CRLF)
    (line ++ header_block headers ++ CRLF ++ CRLF ++ body)
  = (line ++ header_block headers, CRLF ++ CRLF, body).
Proof.
  intros Hcr HF. unfold partition.
  rewrite (find_blank_skip line _ Hcr), (find_blank_block headers body HF).
  reflexivity.
Qed.

Lemma splitlines_line (a x : string) :
  any_char islinebreak a = false ->
  splitlines (a ++ CRLF ++ x) = a :: splitlines x.
Proof.
  induction a as [|c a IH]; intros H.
  - rewrite append_nil. reflexivity.
  - cbn [any_char] in H. apply orb_false_elim in H. destruct H as [Hc Ha].
    rewrite append_cons. cbn [splitlines]. rewrite Hc, (IH Ha). reflexivity.
Qed.

(** The lines of a header are the request line and the header lines. *)
Lemma splitlines_block (headers : list (string * string)) :
  Forall wire_header headers ->
  forall line : string,
    is_empty line = false -> any_char islinebreak line = false ->
    splitlines (line ++ header_block headers)
    = line :: map header_line headers.
Proof.
  induction 1 as [|kv rest Hkv _ IH]; intros line Hne Hl.
  - cbn [header_block map]. rewrite append_empty_r.
    rewrite (splitlines_one_line _ Hl), Hne. reflexivity.
  - destruct (header_line_shape kv Hkv) as (Hne' & Hl' & _ & _).
    cbn [header_block map].
    rewrite (splitlines_line line _ Hl), (IH _ Hne' Hl'). reflexivity.
Qed.

Lemma partition_header (k v : string) :
  occurs ":" k = false ->
  partition ":" (header_line (k, v)) = (k, ":", String " " v).
Proof.
  intros H. unfold partition, header_line. cbn [fst snd].
  change (": " ++ v) with (String ":" (String " " v)).
  rewrite (find_sep_first ":" k _ H). reflexivity.
Qed.

Lemma strip_after_space (v : string) : strip (String " " v) = strip v.
Proof. reflexivity. Qed.

(** The loop over the header lines stores every header under its name. *)
Lemma headers_fold (headers : list (string * string)) :
  Forall wire_header headers ->
  forall acc : gmap string string,
    fold_left
      (fun headers line =>
         if is_empty line then headers
         else
           let '(key, _, value) := partition ":" line in
           let value := strip value in
           <[key := value]> headers)
      (map header_line headers) acc
    = fold_left (fun headers kv => <[fst kv := snd kv]> headers) headers acc.
Proof.
  induction 1 as [|[k v] rest Hkv _ IH]; intros acc; [reflexivity|].
  destruct (header_line_shape _ Hkv) as (Hne & _ & _ & _).
  destruct Hkv as (_ & _ & _ & _ & Hc & Hs). cbn [fst snd] in Hc, Hs.
  cbn [map fold_left fst snd].
  rewrite Hne, (partition_header k v Hc). cbv zeta.
  rewrite strip_after_space, Hs. apply IH.
Qed.

Lemma build_request_split (m t v : string)
    (headers pairs : list (string * string)) :
  build_request m t v headers pairs
  = (m ++ " " ++ t ++ " " ++ v)
    ++ header_block headers ++ CRLF ++ CRLF ++ urlencode pairs.
Proof.
  unfold build_request. rewrite <- !append_assoc. reflexivity.
Qed.

(** X18.  A request made of a request line [method target version], header
    lines [Name: value], a blank line and the pairs [k1=v1&k2=v2...] as
    its body is parsed back into the target, the method, the headers and
    the pairs (a later header or pair of the same name replacing an earlier
    one), whenever the three parts of the request line are ASCII tokens,
    the target has no [?], names and values are ASCII without line
    boundaries, header names have no [:] and header values no whitespace
    at either end, keys are not empty and have no [=], and keys and values
    have no [&]. *)
Theorem extract_request_build_request (method target version : string)
    (headers pairs : list (string * string)) :
  ascii_token method -> ascii_token target -> ascii_token version ->
  occurs "?" target = false ->
  Forall wire_header headers ->
  Forall wire_pair pairs ->
  extract_request (build_request method target version headers pairs)
  = Some (target, method,
          fold_left (fun headers kv => <[fst kv := snd kv]> headers) headers ∅,
          fold_left (fun kwargs kv => <[fst kv := snd kv]> kwargs) pairs ∅).
Proof.
  intros Hm Ht Hv Hq HH HF.
  assert (HP : Forall plain_pair pairs).
  { eapply Forall_impl; [exact HF|]. intros kv H. exact (proj1 H). }
  destruct (urlencode_wire pairs HF) as [Hab Hlb].
  destruct (request_line_shape method target version Hm Ht Hv)
    as (Hne & Hll & Hcr & Hal).
  unfold extract_request, extract_request_try, decode.
  rewrite build_request_split.
  assert (Ha : all_ascii
                 ((method ++ " " ++ target ++ " " ++ version)
                  ++ header_block headers ++ CRLF ++ CRLF ++ urlencode pairs)
               = true).
  { rewrite all_ascii_app, Hal.
    rewrite all_ascii_app, (header_block_ascii headers HH).
    change (CRLF ++ CRLF ++ urlencode pairs)
      with (String CR (String LF (String CR (String LF (urlencode pairs))))).
    cbn [all_ascii]. rewrite Hab. reflexivity. }
  rewrite Ha. cbn [rbind].
  rewrite (partition_request _ headers _ Hcr HH).
  rewrite (splitlines_block headers HH _ Hne Hll).
  rewrite (split_ws_three method target version
             (proj1 Hm) (proj1 Ht) (proj1 Hv)).
  cbn [rbind].
  rewrite (partition_no_query target Hq). cbn [tl].
  rewrite (headers_fold headers HH).
  destruct (is_empty (urlencode pairs)) eqn:He.
  - rewrite (urlencode_empty pairs HP He). reflexivity.
  - rewrite (splitlines_one_line _ Hlb), He. cbn [fold_left].
    rewrite (extract_args_pairs pairs ∅ HP). reflexivity.
Qed.

(** X18 on a request to water position A. *)
Lemma extract_request_build_request_witness :
  extract_request
    (build_request "POST" "/water" "HTTP/1.1"
       [("Host", "plant.local:1337"); ("Accept", "*/*")]
       [("pump", "a"); ("volume", "5")])
  = Some ("/water", "POST",
          fold_left (fun headers kv => <[fst kv := snd kv]> headers)
            [("Host", "plant.local:1337"); ("Accept", "*/*")] ∅,
          fold_left (fun kwargs kv => <[fst kv := snd kv]> kwargs)
            [("pump", "a"); ("volume", "5")] ∅).
Proof.
  apply extract_request_build_request.
  - repeat split; vm_compute; reflexivity.
  - repeat split; vm_compute; reflexivity.
  - repeat split; vm_compute; reflexivity.
  - vm_compute; reflexivity.
  - repeat (constructor; [repeat split; vm_compute; reflexivity|]).
    constructor.
  - repeat (constructor; [repeat split; vm_compute; reflexivity|]).
    constructor.
Defined.

(** ** What [GET /moisture] reports *)

(** Dispensing does not touch the global [actual_moisture]. *)
Lemma dispense_water_keeps_moisture (E : Env) (pump : string) (ml : pynum)
    (w w' : World) (r : Res unit) :
  dispense_water E pump ml w = (r, w') ->
  actual_moisture w' = actual_moisture w.
Proof.
  intros H.
  unfold_dispense H.
  destruct (label2pin !! pump) as [p0|] eqn:L.
  all: split_faults E H.
  all: try (destruct (tof_distance E _) eqn:D;
            cbn [truediv is_zero_num Z.of_nat Pos.of_succ_nat Z.eqb add] in H).
  all: inversion H; subst; clear H.
  all: reflexivity.
Qed.

Lemma water_positions_keeps_moisture (E : Env) (pairs : list (pynum * pynum)) :
  forall (i : nat) (w w' : World) (r : Res unit),
    water_positions E i pairs w = (r, w') ->
    actual_moisture w' = actual_moisture w.
Proof.
  induction pairs as [|[reading target] rest IH]; intros i w w' r H.
  - inversion H; reflexivity.
  - cbn [water_positions] in H. unfold bind at 1 in H.
    destruct (Py.lt reading target).
    + unfold bind at 1 in H. unfold lift at 1 in H.
      destruct (index i2ABC i) as [name|e];
        [|inversion H; reflexivity].
      unfold bind at 1 in H. unfold info at 1 in H.
      unfold bind at 1 in H. unfold lift at 1 in H.
      destruct (index i2abc i) as [pump|e];
        [|inversion H; reflexivity].
      destruct (dispense_water E pump _ _) as [[[]|e] w1] eqn:D;
        apply dispense_water_keeps_moisture in D; world_simpl.
      * apply IH in H. congruence.
      * inversion H; subst. exact D.
    + unfold ret in H. apply IH in H. exact H.
Qed.

(** X19: what a turn of the watering loop leaves for [GET /moisture].
    When the sweep of that turn completes, its readings are stored before
    any watering starts, and they stay stored whatever happens afterwards
    in the turn (a failed distance sample, an interrupted dispense or
    sleep); when the sweep itself fails, the turn ends with that failure
    and the stored readings are those of before.  A [GET /moisture] served
    after the turn answers [200 OK] with the stored list. *)
Theorem watering_turn_publishes_readings :
  forall (E : Env) (fuel : nat) (w w' : World) r,
    watering_turn E fuel w = (r, w') ->
    let sweep := moisture_readings E fuel (emit (EInfo ["Reading sensors..."]) w) in
    (forall readings, fst sweep = Ok (Some readings) ->
       actual_moisture w' = readings)
    /\ (forall e, fst sweep = Raise e ->
          r = Raise e /\ actual_moisture w' = actual_moisture w)
    /\ (forall client : Client,
          incoming client = moisture_request ->
          would_block client = 0%nat ->
          send_fails client = false ->
          handle_connection E (endpoints E) client WORKER_BUFFER_SIZE w'
          = (Ok tt,
             emit (EClose (cid client))
               (emit (ESend (cid client)
                        ("HTTP/1.1 200 OK" ++ CRLF ++ CRLF
                         ++ str_of_list (actual_moisture w'))) w'))).
Proof.
  intros E fuel w w' r H sweep. split; [|split].
  - intros readings Hs. subst sweep.
    unfold watering_turn in H.
    unfold bind at 1 in H. unfold info at 1 in H.
    unfold bind at 1 in H.
    destruct (moisture_readings E fuel _) as [[[rs|]|e] w1] eqn:R;
      cbn [fst] in Hs; try discriminate.
    injection Hs as ->.
    unfold bind at 1 in H. unfold store_moisture at 1 in H.
    unfold bind at 1 in H. unfold info at 1 in H.
    unfold bind at 1 in H. unfold load_moisture at 1 in H. world_simpl.
    unfold bind at 1 in H.
    destruct (water_positions E 0 _ _) as [[[]|e] w3] eqn:W;
      apply water_positions_keeps_moisture in W; world_simpl.
    + unfold sleep, fallible in H. unfold bind, ret in H.
      rewrite <- W.
      destruct (fault E (calls w3)); inversion H; reflexivity.
    + rewrite <- W. inversion H; reflexivity.
  - intros e Hs. subst sweep.
    unfold watering_turn in H.
    unfold bind at 1 in H. unfold info at 1 in H.
    unfold bind at 1 in H.
    destruct (moisture_readings E fuel _) as [[[rs|]|e'] w1] eqn:R;
      cbn [fst] in Hs; try discriminate.
    injection Hs as ->. inversion H; subst.
    apply moisture_readings_keeps_moisture in R. auto.
  - intros client Hin Hb Hs.
    rewrite handle_connection_ready by exact Hb.
    rewrite Hin, moisture_request_parsed. cbv zeta.
    unfold bind at 1. unfold handle_api. rewrite endpoints_moisture.
    cbn [ep_method ep_func String.eqb Ascii.eqb Bool.eqb].
    unfold moisture, load_moisture, bind, lift, ret, send, close.
    rewrite Hs. reflexivity.
Qed.

(** X19 on the bench: the first turn stores the readings of its sweep. *)
Lemma watering_turn_publishes_readings_witness :
  actual_moisture (snd (watering_turn bench 300 initial_world))
  = [PyFloat 12.5; PyFloat 0; PyFloat 100].
Proof.
  refine (proj1 (watering_turn_publishes_readings bench 300 initial_world
                   (snd (watering_turn bench 300 initial_world))
                   (fst (watering_turn bench 300 initial_world)) _) _ _).
  - vm_compute. reflexivity.
  - vm_compute. reflexivity.
Defined.

(** ** A request to water *)




Lemma last_char_app (p : string) (c : ascii) :
  last_char (p ++ String c "") = Ok (String c "").
Proof.
  induction p as [|x p IH]; [reflexivity|].
  rewrite append_cons. cbn [last_char]. rewrite IH.
  destruct p; reflexivity.
Qed.

Lemma lower_char_idempotent (c : ascii) :
  lower_char (lower_char c) = lower_char c.
Proof. destruct c as [[] [] [] [] [] [] [] []]; reflexivity. Qed.

(** X21: of its pump argument [water] reads the last character only, and
    that one without regard to case: [pump=Pump A], [pump=A] and [pump=a]
    are the same request. *)
Theorem water_reads_last_character :
  forall (E : Env) (p : string) (c : ascii) (volume : option string),
    water E (Some (p ++ String c "")) volume
    = water E (Some (String (lower_char c) "")) volume.
Proof.
  intros E p c [volume|]; [|reflexivity].
  unfold water. rewrite last_char_app. cbn [last_char].
  unfold bind, lift, lower. cbn [smap].
  rewrite lower_char_idempotent. reflexivity.
Qed.
